(** * qiita_client: the REST client and the plugin entry point

    A shallow embedding of [qiita_client/qiita_client.py] and
    [qiita_client/plugin.py].

    - Python dictionaries are [gmap]s, [set(...)] is a [gset].
    - Code that talks to the server, sleeps or touches the file system is
      written in a state-and-exception monad.  The state holds the log of
      the effects performed so far and the module global [JOB_COMPLETED];
      whatever lies outside the program (the server, the file system, the
      other thread, the interpreter's rendering of values) is an [Env]
      that answers from the log.
    - An exception leaves the state as it was when it was raised: nothing
      is rolled back. *)

From Stdlib Require Import ZArith Lia Ascii.
From stdpp Require Import base strings list gmap fin_maps pretty.

Open Scope Z_scope.
Set Warnings "-clear-no-such-hyp".

(* ===================================================================== *)
(** ** Plain data *)
(* ===================================================================== *)

(** [class ArtifactInfo]: the three attributes set by [__init__]. *)
Record ArtifactInfo := mkArtifactInfo {
  output_name : string;
  artifact_type : string;
  files : list (string * string)
}.

(** What the right-hand side of [==] can be. *)
Inductive PyObject :=
| ObjArtifactInfo (a : ArtifactInfo)
| ObjNone
| ObjStr (s : string)
| ObjInt (n : Z).

(** [ArtifactInfo.__eq__] *)
Definition __eq__ (self : ArtifactInfo) (other : PyObject) : bool :=
  match other with
  | ObjArtifactInfo other =>
      if bool_decide (output_name self ≠ output_name other)
         || bool_decide (artifact_type self ≠ artifact_type other)
         || bool_decide (list_to_set (files self) ≠@{gset (string * string)}
                         list_to_set (files other))
      then false
      else true
  | _ => false
  end.

(** [ArtifactInfo.__ne__] *)
Definition __ne__ (self : ArtifactInfo) (other : PyObject) : bool :=
  negb (__eq__ self other).

(** The value stored under an output name in the payload:
    [{'artifact_type': ..., 'filepaths': ...}]. *)
Record ArtifactEntry := mkArtifactEntry {
  entry_artifact_type : string;
  filepaths : list (string * string)
}.

(** The dictionary built by [_format_payload]. [None] is Python's [None]. *)
Record Payload := mkPayload {
  success : bool;
  error : option string;
  artifacts : option (gmap string ArtifactEntry)
}.

(** The dictionary comprehension of [_format_payload]: one store per
    element, in list order, a later store replacing an earlier one under
    the same key. *)
Definition artifacts_dict (artifacts_info : list ArtifactInfo)
  : gmap string ArtifactEntry :=
  foldl (λ d a_info,
           <[output_name a_info :=
               mkArtifactEntry (artifact_type a_info) (files a_info)]> d)
        ∅ artifacts_info.

(** Truth value of the optional list argument: [None] and [[]] are false. *)
Definition list_truthy {A} (l : option (list A)) : bool :=
  match l with
  | Some (_ :: _) => true
  | _ => false
  end.

(** [_format_payload(success, error_msg=None, artifacts_info=None)] *)
Definition _format_payload (success : bool) (error_msg : option string)
    (artifacts_info : option (list ArtifactInfo)) : Payload :=
  let artifacts :=
    if success && list_truthy artifacts_info
    then Some (artifacts_dict (default [] artifacts_info))
    else None in
  {| success := success;
     error := if negb success then error_msg else Some "";
     artifacts := artifacts |}.

(* ===================================================================== *)
(** ** Values, responses, exceptions *)
(* ===================================================================== *)

(** What [Response.json()] can return. Numbers are kept integral. *)
#[warnings="-register-all"]
Inductive JSON :=
| JNull
| JBool (b : bool)
| JNum (n : Z)
| JStr (s : string)
| JList (l : list JSON)
| JObj (d : gmap string JSON).

(** Python truth value of a parsed body. *)
Definition truthy (j : JSON) : bool :=
  match j with
  | JNull => false
  | JBool b => b
  | JNum n => negb (n =? 0)
  | JStr s => negb (bool_decide (s = ""))
  | JList l => negb (bool_decide (l = []))
  | JObj d => negb (bool_decide (d = ∅))
  end.

(** [j == s] for a string literal [s]. *)
Definition json_eq_str (j : JSON) (s : string) : bool :=
  match j with
  | JStr s' => bool_decide (s' = s)
  | _ => false
  end.

(** A [requests.Response]: [json_body = None] means [r.json()] raises
    [ValueError] (no body, or a body that is not JSON). *)
Record Response := mkResponse {
  status_code : Z;
  text : string;
  json_body : option JSON
}.

(** The exceptions that can travel through this code. *)
Inductive Exn :=
| ConnectionError                 (* requests.ConnectionError *)
| ValueError (msg : string)
| KeyError (key : string)
| TypeError
| AttributeError (attr : string)
| IOError (path : string)
| OSError (path : string)
| NoSectionError (section : string)
| NoOptionError (option_name : string)
| NotFoundError (msg : string)
| ForbiddenError (msg : string)
| BadRequestError (msg : string)
| RuntimeError (msg : string)
| UnboundLocalError (name : string)
| JobError (detail : string).     (* whatever a job function raises *)

(** Modelled from the spec: [qiita_client/exceptions.py] is not among the
    sources.  "Any typed client error raised by the transport (e.g. the
    job not being found)": the three status-code errors are the
    [QiitaClientError]s. *)
Definition is_QiitaClientError (e : Exn) : bool :=
  match e with
  | NotFoundError _ | ForbiddenError _ | BadRequestError _ => true
  | _ => false
  end.

Inductive Result (A : Type) :=
| Ok (a : A)
| Raise (e : Exn).
Arguments Ok {A} a.
Arguments Raise {A} e.

(** [j[key]] for a string key. *)
Definition subscript (j : JSON) (key : string) : Result JSON :=
  match j with
  | JObj d =>
      match d !! key with
      | Some v => Ok v
      | None => Raise (KeyError key)
      end
  | _ => Raise TypeError
  end.

(* ===================================================================== *)
(** ** Requests, the effect log and the environment *)
(* ===================================================================== *)

(** [requests.get], [requests.post], [requests.patch]. *)
Inductive Method := GET | POST | PATCH.

(** [req.__name__] *)
Definition __name__ (req : Method) : string :=
  match req with GET => "get" | POST => "post" | PATCH => "patch" end.

(** The [data] argument of a request: a string, a dictionary of strings,
    or the text [json.dumps] gives for a payload (kept as the payload). *)
Inductive Data :=
| DataStr (s : string)
| DataDict (d : gmap string string)
| DataDumps (p : Payload).

(** The [verify] argument: [True] or the path of a certificate. *)
Inductive Verify :=
| VerifyTrue
| VerifyCert (path : string).

(** The keyword arguments a caller passes on to [requests]. *)
Record Kwargs := mkKwargs {
  headers : option (gmap string string);
  data : option Data
}.

(** One entry of the log per effect, oldest first. *)
Inductive Event :=
| EvAuthenticate (url : string) (verify : Verify) (form : gmap string string)
| EvRequest (req : Method) (url : string) (verify : Verify)
            (hdrs : gmap string string) (body : option Data)
| EvSleep (seconds : Z)
| EvThreadStart (url : string)
| EvOpen (path : string)
| EvMakedirs (path : string).

(** What a call of [requests] comes back with. *)
Inductive Outcome :=
| Unreachable                      (* raises requests.ConnectionError *)
| Reply (r : Response).

(** Everything outside the program. Each answer may depend on all that
    has happened so far; for a network call the log passed ends with the
    call itself. *)
Record Env := mkEnv {
  respond : list Event → Outcome;
  (** ['%s' % v] for a parsed value that is not a string *)
  render : JSON → string;
  (** [str(e)] *)
  str_exn : Exn → string;
  (** [repr(traceback.format_exception( *sys.exc_info()))] *)
  format_exception : Exn → string;
  (** has the other flow set [JOB_COMPLETED] by now? *)
  completed_elsewhere : list Event → bool;
  (** the sections of the configuration file at a path, if it opens *)
  config_files : string → option (gmap string (gmap string string));
  (** [os.path.exists] *)
  path_exists : list Event → string → bool;
  (** does [os.makedirs] succeed? *)
  makedirs_ok : list Event → bool;
  (** [join(dirname(abspath(__file__)), 'support_files', 'config_file.cfg')] *)
  default_conf_fp : string
}.

(** The state outside any object: the log and the module global. *)
Record World := mkWorld {
  log : list Event;
  JOB_COMPLETED : bool
}.

Definition record (e : Event) (w : World) : World :=
  {| log := log w ++ [e]; JOB_COMPLETED := JOB_COMPLETED w |}.

(* ===================================================================== *)
(** ** The monad *)
(* ===================================================================== *)

Definition M (S A : Type) : Type := S → Result A * S.

Definition ret {S A} (a : A) : M S A := λ s, (Ok a, s).

Definition bind {S A B} (m : M S A) (k : A → M S B) : M S B :=
  λ s, match m s with
       | (Ok a, s') => k a s'
       | (Raise e, s') => (Raise e, s')
       end.

Definition raise {S A} (e : Exn) : M S A := λ s, (Raise e, s).

Definition lift_result {S A} (r : Result A) : M S A := λ s, (r, s).

Definition get_state {S} : M S S := λ s, (Ok s, s).

Definition modify {S} (f : S → S) : M S unit := λ s, (Ok tt, f s).

(** [try: m except Exception as e: h e] *)
Definition try_except {S A} (m : M S A) (h : Exn → M S A) : M S A :=
  λ s, match m s with
       | (Ok a, s') => (Ok a, s')
       | (Raise e, s') => h e s'
       end.

Declare Scope py_scope.
Delimit Scope py_scope with py.
Notation "x <- m ;; k" := (bind m (λ x, k))
  (at level 100, m at next level, right associativity) : py_scope.
Notation "m ;;; k" := (bind m (λ _, k))
  (at level 100, right associativity) : py_scope.
Open Scope py_scope.

(* ===================================================================== *)
(** ** [class QiitaClient] *)
(* ===================================================================== *)

(** The attributes of a client. [_token] is created by the first
    [_fetch_token], which [__init__] runs before it returns the object,
    so the value it holds before that is never read. *)
Record QiitaClient := mkQiitaClient {
  _server_url : string;
  _verify : Verify;
  _client_id : string;
  _client_secret : string;
  _authenticate_url : string;
  _token : JSON
}.

(** A method runs on the client object and the world together: an
    assignment to [self._token] is seen by whoever holds the client next,
    also when the method ends in an exception. *)
Record ClientState := mkClientState {
  self : QiitaClient;
  world : World
}.

Definition set_token (tok : JSON) (st : ClientState) : ClientState :=
  let c := self st in
  {| self := {| _server_url := _server_url c;
                _verify := _verify c;
                _client_id := _client_id c;
                _client_secret := _client_secret c;
                _authenticate_url := _authenticate_url c;
                _token := tok |};
     world := world st |}.

Definition on_world (f : World → World) (st : ClientState) : ClientState :=
  {| self := self st; world := f (world st) |}.

(** The text of the [ValueError] raised by [Response.json()]. *)
Definition json_decode_error : string := "No JSON object could be decoded".

(** [r.json()] *)
Definition json (r : Response) : Result JSON :=
  match json_body r with
  | Some j => Ok j
  | None => Raise (ValueError json_decode_error)
  end.

Definition token_timed_out : string := "Oauth2 error: token has timed out".

Module QiitaClient.
Section WithEnv.
Context (env : Env).

(** A call of [requests.get/post/patch]: logged, then answered by the
    environment. *)
Definition send (e : Event) : M ClientState Response :=
  λ st, let st' := on_world (record e) st in
        match respond env (log (world st')) with
        | Unreachable => (Raise ConnectionError, st')
        | Reply r => (Ok r, st')
        end.

(** ['%s' % v] *)
Definition format_s (v : JSON) : string :=
  match v with
  | JStr s => s
  | _ => render env v
  end.

(** ['Bearer %s' % self._token] *)
Definition bearer (c : QiitaClient) : string :=
  "Bearer " +:+ format_s (_token c).

Definition _fetch_token : M ClientState unit :=
  st <- get_state ;;
  let data : gmap string string :=
    <["client_id" := _client_id (self st)]>
      (<["client_secret" := _client_secret (self st)]>
         (<["grant_type" := "client"]> ∅)) in
  r <- send (EvAuthenticate (_authenticate_url (self st))
                            (_verify (self st)) data) ;;
  if bool_decide (status_code r ≠ 200)
  then raise (ValueError "Can't authenticate with the Qiita server")
  else
    j <- lift_result (json r) ;;
    tok <- lift_result (subscript j "access_token") ;;
    modify (set_token tok).

(** [r_json and r_json['error_description'] == '...'], where [r_json] is
    [None] when the body does not parse. *)
Definition token_expired (r : Response) : Result bool :=
  let r_json := default JNull (json_body r) in
  if truthy r_json
  then match subscript r_json "error_description" with
       | Ok v => Ok (json_eq_str v token_timed_out)
       | Raise e => Raise e
       end
  else Ok false.

(** [_request_oauth2(req, url, verify=..., **kwargs)] *)
Definition _request_oauth2 (req : Method) (url : string) (verify : Verify)
    (kwargs : Kwargs) : M ClientState Response :=
  st <- get_state ;;
  let hdrs := <["Authorization" := bearer (self st)]>
                (default ∅ (headers kwargs)) in
  r <- send (EvRequest req url verify hdrs (data kwargs)) ;;
  if bool_decide (status_code r = 400)
  then
    expired <- lift_result (token_expired r) ;;
    if (expired : bool)
    then
      _fetch_token ;;;
      st' <- get_state ;;
      let hdrs' := <["Authorization" := bearer (self st')]> hdrs in
      send (EvRequest req url verify hdrs' (data kwargs))
    else ret r
  else ret r.

(** The text of the final [RuntimeError] of [_request_retry]. *)
Definition did_not_succeed (req : Method) (url : string) (r : Response)
  : string :=
  "Request '" +:+ __name__ req +:+ " " +:+ url
  +:+ "' did not succeed. Status code: " +:+ pretty (status_code r)
  +:+ ". Message: " +:+ text r.

(** The [while retries > 0] loop of [_request_retry]; [url] is already
    the full address and [last] is the variable [r], unbound before the
    first round. After the loop comes the final [raise]. *)
Fixpoint _request_retry_loop (retries : nat) (last : option Response)
    (req : Method) (url : string) (kwargs : Kwargs)
  : M ClientState (option JSON) :=
  match retries with
  | O =>
      match last with
      | Some r => raise (RuntimeError (did_not_succeed req url r))
      | None => raise (UnboundLocalError "r")
      end
  | S retries =>
      st <- get_state ;;
      r <- _request_oauth2 req url (_verify (self st)) kwargs ;;
      if bool_decide (status_code r = 404) then raise (NotFoundError (text r))
      else if bool_decide (status_code r = 403)
      then raise (ForbiddenError (text r))
      else if bool_decide (status_code r = 400)
      then raise (BadRequestError (text r))
      else if bool_decide (status_code r = 200)
      then ret (json_body r)
      else _request_retry_loop retries (Some r) req url kwargs
  end.

Definition _request_retry (req : Method) (url : string) (kwargs : Kwargs)
  : M ClientState (option JSON) :=
  st <- get_state ;;
  let url := _server_url (self st) +:+ url in
  _request_retry_loop 2 None req url kwargs.

Definition get (url : string) (kwargs : Kwargs) : M ClientState (option JSON) :=
  _request_retry GET url kwargs.

Definition post (url : string) (kwargs : Kwargs) : M ClientState (option JSON) :=
  _request_retry POST url kwargs.

Definition is_None {A} (o : option A) : bool :=
  match o with None => true | Some _ => false end.

(** The body [patch] builds. *)
Definition patch_data (op path : string) (value from_p : option string)
  : gmap string string :=
  let data : gmap string string := <["op" := op]> (<["path" := path]> ∅) in
  let data := match value with
              | Some v => <["value" := v]> data
              | None => data
              end in
  match from_p with
  | Some f => <["from" := f]> data
  | None => data
  end.

Definition patch (url op path : string) (value from_p : option string)
    (kwargs : Kwargs) : M ClientState (option JSON) :=
  if bool_decide (op ∈ ["add"; "replace"; "test"]) && is_None value
  then raise (ValueError
                ("Operation '" +:+ op +:+ "' requires the paramater 'value'"))
  else if bool_decide (op ∈ ["move"; "copy"]) && is_None from_p
  then raise (ValueError
                ("Operation '" +:+ op +:+ "' requires the parameter 'from_p'"))
  else
    let kwargs := {| headers := headers kwargs;
                     data := Some (DataDict (patch_data op path value from_p)) |} in
    _request_retry PATCH url kwargs.

Definition start_heartbeat (job_id : string) : M ClientState unit :=
  let url := "/qiita_db/jobs/" +:+ job_id +:+ "/heartbeat/" in
  post url {| headers := None; data := Some (DataStr "") |} ;;;
  modify (on_world (record (EvThreadStart url))).

Definition get_job_info (job_id : string) : M ClientState (option JSON) :=
  get ("/qiita_db/jobs/" +:+ job_id) {| headers := None; data := None |}.

Definition set_JOB_COMPLETED (w : World) : World :=
  {| log := log w; JOB_COMPLETED := true |}.

Definition complete_job (job_id : string) (success : bool)
    (error_msg : option string) (artifacts_info : option (list ArtifactInfo))
  : M ClientState unit :=
  modify (on_world set_JOB_COMPLETED) ;;;
  let json_payload :=
    DataDumps (_format_payload success error_msg artifacts_info) in
  post ("/qiita_db/jobs/" +:+ job_id +:+ "/complete/")
       {| headers := None; data := Some json_payload |} ;;;
  ret tt.

(** [QiitaClient(server_url, client_id, client_secret, server_cert)]: the
    new object, or the exception of the first [_fetch_token]. *)
Definition __init__ (server_url client_id client_secret : string)
    (server_cert : option string) : M World QiitaClient :=
  λ w,
    let verify := match server_cert with
                  | None | Some "" => VerifyTrue
                  | Some cert => VerifyCert cert
                  end in
    let this := {| _server_url := server_url;
                   _verify := verify;
                   _client_id := client_id;
                   _client_secret := client_secret;
                   _authenticate_url := server_url +:+ "/qiita_db/authenticate/";
                   _token := JNull |} in
    match _fetch_token {| self := this; world := w |} with
    | (Ok _, st) => (Ok (self st), world st)
    | (Raise e, st) => (Raise e, world st)
    end.

End WithEnv.
End QiitaClient.

(* ===================================================================== *)
(** ** [_heartbeat] *)
(* ===================================================================== *)

Section Heartbeat.
Context (env : Env).

(** Reading the global [JOB_COMPLETED] in the heartbeat thread: true once
    this flow or the other one has set it. *)
Definition read_JOB_COMPLETED (st : ClientState) : bool :=
  JOB_COMPLETED (world st) || completed_elsewhere env (log (world st)).

(** [time.sleep(seconds)] *)
Definition sleep (seconds : Z) : M ClientState unit :=
  modify (on_world (record (EvSleep seconds))).

(** One round of the [while] loop: the [try] statement and the final
    [time.sleep(30)]. Returns the new value of [retries]. *)
Definition _heartbeat_round (url : string) (retries : Z) : M ClientState Z :=
  retries <-
    try_except
      (QiitaClient.post env url {| headers := None; data := Some (DataStr "") |} ;;;
       ret 2)
      (λ e, match e with
            | ConnectionError => sleep 300 ;;; ret (retries - 1)
            | _ =>
                if is_QiitaClientError e then raise e
                else raise (RuntimeError
                              ("Error executing heartbeat: " +:+ str_exn env e))
            end) ;;
  sleep 30 ;;;
  ret retries.

(** The loop, for at most [fuel] rounds: [None] when the rounds run out
    while the loop condition still holds. *)
Fixpoint _heartbeat_loop (fuel : nat) (url : string) (retries : Z)
    (st : ClientState) : option (Result unit * ClientState) :=
  if negb (read_JOB_COMPLETED st) && (0 <? retries)
  then
    match fuel with
    | O => None
    | S fuel =>
        match _heartbeat_round url retries st with
        | (Ok retries, st') => _heartbeat_loop fuel url retries st'
        | (Raise e, st') => Some (Raise e, st')
        end
    end
  else Some (Ok tt, st).

Definition _heartbeat (fuel : nat) (url : string) (st : ClientState)
  : option (Result unit * ClientState) :=
  _heartbeat_loop fuel url 2 st.

End Heartbeat.

(* ===================================================================== *)
(** ** [plugin.py] *)
(* ===================================================================== *)

(** What a job function hands back: [(success, artifacts_info, error_msg)]. *)
Definition JobReturn : Type :=
  bool * option (list ArtifactInfo) * option string.

(** [class QiitaCommand]: the attributes the plugin uses. The function is
    called with the client (the state it runs on) and three more
    arguments. *)
Record QiitaCommand := mkQiitaCommand {
  name : string;
  description : string;
  function : string → JSON → string → M ClientState JobReturn
}.

(** The value of an instance attribute of a plugin. *)
Inductive AttrValue :=
| AStr (s : string)
| ATaskDict (d : gmap string QiitaCommand).

(** A plugin object is its instance dictionary. *)
Record BaseQiitaPlugin := mkBaseQiitaPlugin {
  __dict__ : gmap string AttrValue
}.

(** [obj.attr] for a data attribute: the class defines none. *)
Definition getattr (obj : BaseQiitaPlugin) (attr : string) : Result AttrValue :=
  match __dict__ obj !! attr with
  | Some v => Ok v
  | None => Raise (AttributeError attr)
  end.

Definition newline : string := String "010"%char "".

Module QiitaCommand.

(** [QiitaCommand.__call__]: the four arguments are passed on in order. *)
Definition __call__ (self : QiitaCommand) (server_url : string)
    (job_id : JSON) (output_dir : string) : M ClientState JobReturn :=
  function self server_url job_id output_dir.

End QiitaCommand.

Module BaseQiitaPlugin.
Section WithEnv.
Context (env : Env).

Definition __init__ (name version description : string)
    (conf_fp : option string) : BaseQiitaPlugin :=
  {| __dict__ :=
       <["task_dict" := ATaskDict ∅]>
         (<["conf_fp" := AStr (default (default_conf_fp env) conf_fp)]>
            (<["decription" := AStr description]>
               (<["version" := AStr version]>
                  (<["name" := AStr name]> ∅)))) |}.

(** [self.task_dict[command.name] = command] *)
Definition _register_command (self : BaseQiitaPlugin) (command : QiitaCommand)
  : Result BaseQiitaPlugin :=
  match getattr self "task_dict" with
  | Ok (ATaskDict d) =>
      Ok {| __dict__ := <["task_dict" := ATaskDict (<[name command := command]> d)]>
                          (__dict__ self) |}
  | Ok _ => Raise TypeError
  | Raise e => Raise e
  end.

(** [open(fp, 'U')] followed by [config.readfp]: the sections of the
    file. *)
Definition read_config (fp : AttrValue)
  : M World (gmap string (gmap string string)) :=
  match fp with
  | AStr path =>
      modify (record (EvOpen path)) ;;;
      match config_files env path with
      | Some sections => ret sections
      | None => raise (IOError path)
      end
  | _ => raise TypeError
  end.

(** [config.get(section, option)] *)
Definition config_get (config : gmap string (gmap string string))
    (section option_name : string) : Result string :=
  match config !! section with
  | None => Raise (NoSectionError section)
  | Some options =>
      match options !! option_name with
      | None => Raise (NoOptionError option_name)
      | Some v => Ok v
      end
  end.

(** [job_info[key]], where [job_info] is [None] when the server's answer
    had no JSON in it. *)
Definition job_info_subscript (job_info : option JSON) (key : string)
  : Result JSON :=
  match job_info with
  | Some j => subscript j key
  | None => Raise TypeError
  end.

(** [self.task_dict[task_name]] *)
Definition lookup_task (self : BaseQiitaPlugin) (task_name : JSON)
  : Result QiitaCommand :=
  match getattr self "task_dict" with
  | Ok (ATaskDict d) =>
      match task_name with
      | JStr s =>
          match d !! s with
          | Some task => Ok task
          | None => Raise (KeyError s)
          end
      | JList _ | JObj _ => Raise TypeError
      | _ => Raise (KeyError (render env task_name))
      end
  | Ok _ => Raise TypeError
  | Raise e => Raise e
  end.

(** [if not exists(output_dir): makedirs(output_dir)] *)
Definition ensure_dir (output_dir : string) : M ClientState unit :=
  st <- get_state ;;
  if path_exists env (log (world st)) output_dir then ret tt
  else
    modify (on_world (record (EvMakedirs output_dir))) ;;;
    if makedirs_ok env (log (world st)) then ret tt
    else raise (OSError output_dir).

(** The [else] branch of [__call__]: everything done for a job once the
    client exists. *)
Definition run_job (self : BaseQiitaPlugin) (job_id output_dir : string)
  : M ClientState unit :=
  job_info <- QiitaClient.get_job_info env job_id ;;
  QiitaClient.start_heartbeat env job_id ;;;
  task_name <- lift_result (job_info_subscript job_info "command") ;;
  task <- lift_result (lookup_task self task_name) ;;
  ensure_dir output_dir ;;;
  res <- try_except
           (parameters <- lift_result (job_info_subscript job_info "parameters") ;;
            QiitaCommand.__call__ task job_id parameters output_dir)
           (λ e,
              let exc_str := format_exception env e in
              let error_msg := "Error executing " +:+ QiitaClient.format_s env task_name
                               +:+ ":" +:+ newline +:+ exc_str in
              ret (false, None, Some error_msg)) ;;
  let '(success, artifacts_info, error_msg) := res in
  QiitaClient.complete_job env job_id success error_msg artifacts_info.

(** [BaseQiitaPlugin.__call__(server_url, job_id, output_dir)] *)
Definition __call__ (self : BaseQiitaPlugin)
    (server_url job_id output_dir : string) : M World unit :=
  onf_fp <- lift_result (getattr self "onf_fp") ;;
  config <- read_config onf_fp ;;
  client_id <- lift_result (config_get config "main" "CLIENT_ID") ;;
  client_secret <- lift_result (config_get config "main" "CLIENT_SECRET") ;;
  server_cert <- lift_result (config_get config "main" "SERVER_CERT") ;;
  qclient <- QiitaClient.__init__ env server_url client_id client_secret
                                  (Some server_cert) ;;
  if bool_decide (job_id = "register")
  then
    _install <- lift_result (getattr self "_install") ;;
    raise TypeError
  else
    λ w, match run_job self job_id output_dir {| self := qclient; world := w |} with
         | (r, st) => (r, world st)
         end.

End WithEnv.
End BaseQiitaPlugin.

(* ===================================================================== *)
(** ** Vocabulary of the statements *)
(* ===================================================================== *)

(** The payload entry an artifact gives rise to. *)
Definition entry_of (a : ArtifactInfo) : ArtifactEntry :=
  mkArtifactEntry (artifact_type a) (files a).

(** The events a list of new log entries is made of. *)
Definition is_refresh (e : Event) : bool :=
  match e with EvAuthenticate _ _ _ => true | _ => false end.

Definition is_request (e : Event) : bool :=
  match e with EvRequest _ _ _ _ _ => true | _ => false end.

Definition refreshes (l : list Event) : nat := length (filter is_refresh l).
Definition requests (l : list Event) : nat := length (filter is_request l).

(** The log entries [st'] has on top of [st]. *)
Definition new_events (st st' : ClientState) : list Event :=
  drop (length (log (world st))) (log (world st')).

(** The request for a new token a client sends. *)
Definition auth_event (c : QiitaClient) : Event :=
  EvAuthenticate (_authenticate_url c) (_verify c)
    (<["client_id" := _client_id c]>
       (<["client_secret" := _client_secret c]>
          (<["grant_type" := "client"]> ∅))).

(** A parsed error body whose description says the token has expired. *)
Definition says_token_expired (r : Response) : Prop :=
  ∃ d, json_body r = Some (JObj d) ∧
       d !! "error_description" = Some (JStr token_timed_out).

(** A status [_request_retry] neither returns on nor raises for. *)
Definition unclassified (r : Response) : Prop :=
  status_code r ≠ 404 ∧ status_code r ≠ 403 ∧
  status_code r ≠ 400 ∧ status_code r ≠ 200.

(** Opens the monadic plumbing in the goal and the hypotheses. *)
Ltac unfold_monad :=
  unfold bind, ret, raise, lift_result, get_state, modify, try_except in *.

(** How [_request_retry] answers a response [r] that [_request_oauth2]
    returned in state [st1]: nothing further is sent. *)
Definition classified (r : Response) (st1 : ClientState)
    (out : Result (option JSON) * ClientState) : Prop :=
  (status_code r = 404 → out = (Raise (NotFoundError (text r)), st1)) ∧
  (status_code r = 403 → out = (Raise (ForbiddenError (text r)), st1)) ∧
  (status_code r = 400 → out = (Raise (BadRequestError (text r)), st1)) ∧
  (status_code r = 200 →
     out = (Ok (json_body r), st1) ∧ (json_body r = None → out.1 = Ok None)).

(** What [patch] refuses: an operation that needs a value without one, or
    one that needs an origin without one. *)
Definition patch_misused (op : string) (value from_p : option string) : Prop :=
  (op ∈ ["add"; "replace"; "test"] ∧ value = None) ∨
  (op ∈ ["move"; "copy"] ∧ from_p = None).

(** The state after [time.sleep(seconds)]. *)
Definition slept (seconds : Z) (st : ClientState) : ClientState :=
  on_world (record (EvSleep seconds)) st.

(** Registering a list of commands, one [_register_command] each. *)
Fixpoint register_all (self : BaseQiitaPlugin) (commands : list QiitaCommand)
  : Result BaseQiitaPlugin :=
  match commands with
  | [] => Ok self
  | command :: commands =>
      match BaseQiitaPlugin._register_command self command with
      | Ok self => register_all self commands
      | Raise e => Raise e
      end
  end.

(** The attributes a plugin has after [__init__] and any number of
    registrations: a task dictionary, and no [onf_fp]. *)
Definition as_constructed (self : BaseQiitaPlugin) : Prop :=
  __dict__ self !! "onf_fp" = None ∧
  ∃ d, __dict__ self !! "task_dict" = Some (ATaskDict d).

(** The reading of the retry under which an unreachable server is tried
    twice and the call then ends in the generic [RuntimeError]. *)
Definition retried_when_unreachable (env : Env) (req : Method) (url : string)
    (kwargs : Kwargs) (st : ClientState) : Prop :=
  (∀ l, respond env l = Unreachable) →
  let out := QiitaClient._request_retry env req url kwargs st in
  requests (new_events st out.2) = 2%nat ∧
  ∃ msg, out.1 = Raise (RuntimeError msg).

(** A [POST] to a given address. *)
Definition is_post_to (address : string) (e : Event) : bool :=
  match e with
  | EvRequest POST url _ _ _ => bool_decide (url = address)
  | _ => false
  end.

Section Vocabulary.
Context (env : Env).

(** What a network call returns or raises when the log, the call
    included, is [l]. *)
Definition answer (l : list Event) : Result Response :=
  match respond env l with
  | Unreachable => Raise ConnectionError
  | Reply r => Ok r
  end.

(** The steps of [run_job] before the [try] statement all went through. *)
Definition dispatched (self : BaseQiitaPlugin) (job_id output_dir : string)
    (st : ClientState) (job_info : option JSON) (task_name : JSON)
    (task : QiitaCommand) (st3 : ClientState) : Prop :=
  ∃ st1 st2,
    QiitaClient.get_job_info env job_id st = (Ok job_info, st1) ∧
    QiitaClient.start_heartbeat env job_id st1 = (Ok tt, st2) ∧
    BaseQiitaPlugin.job_info_subscript job_info "command" = Ok task_name ∧
    BaseQiitaPlugin.lookup_task env self task_name = Ok task ∧
    BaseQiitaPlugin.ensure_dir env output_dir st2 = (Ok tt, st3).

(** The message reported for a job function that raised. *)
Definition failure_message (task_name : JSON) (e : Exn) : string :=
  "Error executing " +:+ QiitaClient.format_s env task_name +:+ ":" +:+ newline
  +:+ format_exception env e.

End Vocabulary.

(* ===================================================================== *)
(** ** Concrete environments and inputs *)
(* ===================================================================== *)

(** The artifact of the specification's Scenario B. *)
Definition otu_table : ArtifactInfo :=
  mkArtifactInfo "otu_table" "BIOM" [("/tmp/out/table.biom", "biom")].

(** An environment around a given server: nothing else interferes, the
    output directory exists and the default configuration file holds the
    three options the plugin reads. *)
Definition env_with (server : list Event → Outcome) : Env :=
  {| respond := server;
     render := λ _, "";
     str_exn := λ _, "";
     format_exception := λ e, match e with JobError detail => detail | _ => "" end;
     completed_elsewhere := λ _, false;
     config_files := λ path,
       if bool_decide (path = "config_file.cfg")
       then Some {[ "main" := {[ "CLIENT_ID" := "id";
                                 "CLIENT_SECRET" := "secret";
                                 "SERVER_CERT" := "" ]} ]}
       else None;
     path_exists := λ _ _, true;
     makedirs_ok := λ _, true;
     default_conf_fp := "config_file.cfg" |}.

Definition server_down : list Event → Outcome := λ _, Unreachable.

Definition server_always (r : Response) : list Event → Outcome := λ _, Reply r.

Definition expired_response : Response :=
  mkResponse 400 "token has timed out"
    (Some (JObj {[ "error_description" := JStr token_timed_out ]})).

Definition token_response : Response :=
  mkResponse 200 "" (Some (JObj {[ "access_token" := JStr "fresh" ]})).

Definition job_info_response : Response :=
  mkResponse 200 ""
    (Some (JObj {[ "command" := JStr "Validate"; "parameters" := JObj ∅ ]})).

(** A server that takes only the token ["fresh"] and hands it out on
    request. *)
Definition server_expiring : list Event → Outcome :=
  λ l, match last l with
       | Some (EvAuthenticate _ _ _) => Reply token_response
       | Some (EvRequest _ _ _ hdrs _) =>
           if bool_decide (hdrs !! "Authorization" = Some "Bearer fresh")
           then Reply job_info_response
           else Reply expired_response
       | _ => Unreachable
       end.

(** A server on which everything works. *)
Definition server_up : list Event → Outcome :=
  λ l, match last l with
       | Some (EvAuthenticate _ _ _) => Reply token_response
       | Some (EvRequest GET _ _ _ _) => Reply job_info_response
       | Some (EvRequest _ _ _ _ _) => Reply (mkResponse 200 "" None)
       | _ => Unreachable
       end.

Definition client0 : QiitaClient :=
  {| _server_url := "https://qiita.example";
     _verify := VerifyTrue;
     _client_id := "id";
     _client_secret := "secret";
     _authenticate_url := "https://qiita.example/qiita_db/authenticate/";
     _token := JStr "stale" |}.

Definition world0 : World := {| log := []; JOB_COMPLETED := false |}.

Definition st0 : ClientState := {| self := client0; world := world0 |}.

Definition no_kwargs : Kwargs := {| headers := None; data := None |}.

(** A command whose function raises. *)
Definition failing_validate : QiitaCommand :=
  {| name := "Validate";
     description := "";
     function := λ _ _ _, raise (JobError "boom") |}.

Definition error_500 : Response := mkResponse 500 "Internal Server Error" None.

Definition not_found_404 : Response := mkResponse 404 "no such job" None.

Definition heartbeat_url : string := "/qiita_db/jobs/job-1/heartbeat/".

(* ===================================================================== *)
(** ** [QiitaClient.update_job_step] *)
(* ===================================================================== *)

(** [update_job_step(job_id, new_step)]. [dumps] is [json.dumps] on a
    dictionary of strings. *)
Definition update_job_step (env : Env) (dumps : gmap string string → string)
    (job_id new_step : string) : M ClientState unit :=
  let json_payload := dumps {[ "step" := new_step ]} in
  QiitaClient.post env ("/qiita_db/jobs/" +:+ job_id +:+ "/step/")
    {| headers := None; data := Some (DataStr json_payload) |} ;;;
  ret tt.

(* ===================================================================== *)
(** ** Vocabulary of the further statements *)
(* ===================================================================== *)

(** Two client objects that differ at most in their token. *)
Definition same_identity (c c' : QiitaClient) : Prop :=
  _server_url c' = _server_url c ∧
  _verify c' = _verify c ∧
  _client_id c' = _client_id c ∧
  _client_secret c' = _client_secret c ∧
  _authenticate_url c' = _authenticate_url c.

(** A call over the network: a request or an authentication. *)
Definition is_network (e : Event) : bool := is_request e || is_refresh e.

Definition is_thread_start (e : Event) : bool :=
  match e with EvThreadStart _ => true | _ => false end.

(** [st'] is [st] after the network calls [l] and nothing else: the same
    client but for its token, the same [JOB_COMPLETED], the log longer by
    [l]. *)
Definition after_network (st st' : ClientState) (l : list Event) : Prop :=
  same_identity (self st) (self st') ∧
  JOB_COMPLETED (world st') = JOB_COMPLETED (world st) ∧
  log (world st') = log (world st) ++ l ∧
  Forall (λ e, is_network e = true) l.

(** The [verify] argument [QiitaClient.__init__] derives from
    [server_cert]. *)
Definition verify_of (server_cert : option string) : Verify :=
  match server_cert with
  | None | Some "" => VerifyTrue
  | Some cert => VerifyCert cert
  end.

(** What the heartbeat raises for an exception of its call that is not a
    connection failure. *)
Definition heartbeat_error (env : Env) (e : Exn) : Exn :=
  if is_QiitaClientError e then e
  else RuntimeError ("Error executing heartbeat: " +:+ str_exn env e).

(** The heartbeat call. *)
Definition heartbeat_post (env : Env) (url : string)
  : M ClientState (option JSON) :=
  QiitaClient.post env url {| headers := None; data := Some (DataStr "") |}.

(** The task dictionary after storing a list of commands in order. *)
Definition store_commands (d : gmap string QiitaCommand)
    (commands : list QiitaCommand) : gmap string QiitaCommand :=
  foldl (λ d c, <[name c := c]> d) d commands.

(** One of the steps of [run_job] before the [try] statement raised [e]
    and left the state [st']: the fetch of the job information, the
    start of the heartbeat, the reading of the command name, the lookup
    of the command, or the creation of the output directory. *)
Definition fails_before_try (env : Env) (self : BaseQiitaPlugin)
    (job_id output_dir : string) (st : ClientState) (e : Exn)
    (st' : ClientState) : Prop :=
  QiitaClient.get_job_info env job_id st = (Raise e, st') ∨
  ∃ job_info st1,
    QiitaClient.get_job_info env job_id st = (Ok job_info, st1) ∧
    (QiitaClient.start_heartbeat env job_id st1 = (Raise e, st') ∨
     ∃ st2,
       QiitaClient.start_heartbeat env job_id st1 = (Ok tt, st2) ∧
       ((BaseQiitaPlugin.job_info_subscript job_info "command" = Raise e ∧
         st' = st2) ∨
        ∃ task_name,
          BaseQiitaPlugin.job_info_subscript job_info "command" = Ok task_name ∧
          ((BaseQiitaPlugin.lookup_task env self task_name = Raise e ∧
            st' = st2) ∨
           ∃ task,
             BaseQiitaPlugin.lookup_task env self task_name = Ok task ∧
             BaseQiitaPlugin.ensure_dir env output_dir st2 = (Raise e, st')))).

(** A server that cannot be reached for the first call and answers 200
    to every later one. *)
Definition server_flaky : list Event → Outcome :=
  λ l, if bool_decide (length l = 1%nat) then Unreachable
       else Reply (mkResponse 200 "" None).

(** A plugin with no command registered. *)
Definition empty_plugin : BaseQiitaPlugin :=
  BaseQiitaPlugin.__init__ (env_with server_up) "demo" "1.0" "A plugin" None.

(** A plugin with [failing_validate] registered. *)
Definition validate_plugin : BaseQiitaPlugin :=
  {| __dict__ := <["task_dict" := ATaskDict {[ "Validate" := failing_validate ]}]>
                   (__dict__ empty_plugin) |}.

Definition ok_200 : Response := mkResponse 200 "" None.

(** A server that hands out tokens and calls every one of them
    expired. *)
Definition server_never_satisfied : list Event → Outcome :=
  λ l, match last l with
       | Some (EvAuthenticate _ _ _) => Reply token_response
       | Some (EvRequest _ _ _ _ _) => Reply expired_response
       | _ => Unreachable
       end.

(** A 400 whose body is a JSON object without [error_description], and
    one whose body is a JSON list. *)
Definition bad_request_object : Response :=
  mkResponse 400 "bad request"
    (Some (JObj {[ "message" := JStr "bad request" ]})).

Definition bad_request_list : Response :=
  mkResponse 400 "bad request" (Some (JList [JStr "bad request"])).

(* ===================================================================== *)
(** * Properties *)
(* ===================================================================== *)


(** ** The completion payload *)

Lemma artifacts_dict_snoc l a :
  artifacts_dict (l ++ [a]) = <[output_name a := entry_of a]> (artifacts_dict l).
Proof. unfold artifacts_dict. by rewrite foldl_snoc. Qed.

Lemma artifacts_dict_dom l :
  dom (artifacts_dict l) =@{gset string} list_to_set (output_name <$> l).
Proof.
  induction l as [|a l IH] using rev_ind; [done|].
  rewrite artifacts_dict_snoc, dom_insert_L, IH, fmap_app, list_to_set_app_L.
  simpl. set_solver.
Qed.

Lemma artifacts_dict_from l k v :
  artifacts_dict l !! k = Some v →
  ∃ a, a ∈ l ∧ output_name a = k ∧ v = entry_of a.
Proof.
  induction l as [|a l IH] using rev_ind.
  - unfold artifacts_dict. simpl. by rewrite lookup_empty.
  - rewrite artifacts_dict_snoc.
    destruct (decide (output_name a = k)) as [<-|Hne].
    + rewrite lookup_insert_eq. intros [= <-]. exists a. set_solver.
    + rewrite lookup_insert_ne by done. intros Hv.
      destruct (IH Hv) as (x & Hx & Hk & Hvx). exists x. set_solver.
Qed.

Lemma artifacts_dict_last l1 a l2 :
  Forall (λ b, output_name b ≠ output_name a) l2 →
  artifacts_dict (l1 ++ a :: l2) !! output_name a = Some (entry_of a).
Proof.
  induction l2 as [|b l2 IH] using rev_ind; intros Hl2.
  - rewrite artifacts_dict_snoc. apply lookup_insert_eq.
  - apply Forall_app in Hl2 as [Hl2 Hb]. rewrite Forall_singleton in Hb.
    replace (l1 ++ a :: l2 ++ [b]) with ((l1 ++ a :: l2) ++ [b])
      by (by rewrite <- app_assoc).
    rewrite artifacts_dict_snoc, lookup_insert_ne by done. by apply IH.
Qed.

Lemma artifacts_dict_unique l a :
  NoDup (output_name <$> l) → a ∈ l →
  artifacts_dict l !! output_name a = Some (entry_of a).
Proof.
  intros Hnd Ha. apply list_elem_of_split in Ha as (l1 & l2 & ->).
  apply artifacts_dict_last.
  rewrite fmap_app, fmap_cons in Hnd.
  apply NoDup_app in Hnd as (_ & _ & Hnd). apply NoDup_cons in Hnd as [Hnotin _].
  apply Forall_forall. intros b Hb Heq. apply Hnotin. rewrite <- Heq.
  apply list_elem_of_fmap. eauto.
Qed.

(** C1. [_format_payload]: with [success] the error is the empty string;
    without it no artifacts are reported, whatever was passed; with
    [success] and a non-empty list, [artifacts] is a dictionary whose keys
    are exactly the artifacts' output names and whose values are the
    [{artifact_type, filepaths}] of an artifact with that name: of the
    artifact itself when no later one in the list bears the same name, so
    of every artifact when the names are distinct. *)
Theorem format_payload_contract (success : bool) (error_msg : option string)
    (artifacts_info : option (list ArtifactInfo)) :
  let p := _format_payload success error_msg artifacts_info in
  (success = true → error p = Some "") ∧
  (success = false → artifacts p = None) ∧
  (success = true →
   ∀ l, artifacts_info = Some l → l ≠ [] →
     ∃ d, artifacts p = Some d ∧
       dom d = list_to_set (output_name <$> l) ∧
       (∀ k v, d !! k = Some v →
          ∃ a, a ∈ l ∧ output_name a = k ∧
               entry_artifact_type v = artifact_type a ∧ filepaths v = files a) ∧
       (∀ l1 a l2, l = l1 ++ a :: l2 →
          Forall (λ b, output_name b ≠ output_name a) l2 →
          d !! output_name a = Some (mkArtifactEntry (artifact_type a) (files a))) ∧
       (NoDup (output_name <$> l) →
        ∀ a, a ∈ l →
          d !! output_name a = Some (mkArtifactEntry (artifact_type a) (files a)))).
Proof.
  simpl. split; [|split].
  - by intros ->.
  - by intros ->.
  - intros -> l -> Hl. destruct l as [|a0 l]; [done|].
    unfold _format_payload. simpl. eexists. split; [done|].
    split; [apply artifacts_dict_dom|]. split; [|split].
    + intros k v Hv. apply artifacts_dict_from in Hv as (a & Ha & Hk & ->).
      by exists a.
    + intros l1 a l2 -> Hl2. by apply artifacts_dict_last.
    + intros Hnd a Ha. by apply artifacts_dict_unique.
Qed.

Lemma format_payload_contract_witness :
  error (_format_payload true None (Some [otu_table])) = Some "" ∧
  ∃ d, artifacts (_format_payload true None (Some [otu_table])) = Some d ∧
       d !! "otu_table" =
         Some (mkArtifactEntry "BIOM" [("/tmp/out/table.biom", "biom")]).
Proof.
  destruct (format_payload_contract true None (Some [otu_table]))
    as (Herr & _ & Hart).
  split; [by apply Herr|].
  destruct (Hart eq_refl [otu_table] eq_refl) as (d & Hd & _ & _ & _ & Huniq);
    [done|].
  exists d. split; [exact Hd|].
  apply (Huniq ltac:(repeat constructor; set_solver) otu_table).
  set_solver.
Defined.

(** Two artifacts under one output name: the later one is the one
    reported. *)
Example format_payload_same_name :
  artifacts (_format_payload true None
               (Some [mkArtifactInfo "out" "BIOM" []; mkArtifactInfo "out" "FASTA" []]))
  = Some {[ "out" := mkArtifactEntry "FASTA" [] ]}.
Proof. reflexivity. Qed.

(** C10. A failed job reported without a message: the payload's [error]
    is [None], not a string. *)
Theorem format_payload_failure_without_message
    (artifacts_info : option (list ArtifactInfo)) :
  let p := _format_payload false None artifacts_info in
  success p = false ∧ error p = None ∧ error p ≠ Some "".
Proof. done. Qed.

(** ** Equality of artifacts *)

Lemma files_set_eq (l1 l2 : list (string * string)) :
  list_to_set l1 =@{gset (string * string)} list_to_set l2 ↔
  ∀ f, f ∈ l1 ↔ f ∈ l2.
Proof.
  split.
  - intros Heq f. rewrite <- !(elem_of_list_to_set (C := gset _)). by rewrite Heq.
  - intros Hf. apply set_eq. intros f. rewrite !elem_of_list_to_set. apply Hf.
Qed.

(** C8. Two [ArtifactInfo]s are equal exactly when they have the same
    output name, the same artifact type and the same set of
    (filepath, filetype) pairs; the order of the file list does not
    matter; a difference in any of the three makes them unequal; and
    [!=] is the negation of [==]. *)
Theorem artifact_info_equality (a b : ArtifactInfo) :
  (__eq__ a (ObjArtifactInfo b) = true ↔
     output_name a = output_name b ∧
     artifact_type a = artifact_type b ∧
     (∀ f, f ∈ files a ↔ f ∈ files b)) ∧
  (∀ fs, fs ≡ₚ files b →
     __eq__ a (ObjArtifactInfo (mkArtifactInfo (output_name b) (artifact_type b) fs))
     = __eq__ a (ObjArtifactInfo b)) ∧
  (output_name a ≠ output_name b ∨ artifact_type a ≠ artifact_type b ∨
   (∃ f, ¬ (f ∈ files a ↔ f ∈ files b)) →
   __eq__ a (ObjArtifactInfo b) = false) ∧
  (∀ other, __ne__ a other = negb (__eq__ a other)).
Proof.
  assert (Hiff : ∀ b', __eq__ a (ObjArtifactInfo b') = true ↔
     output_name a = output_name b' ∧ artifact_type a = artifact_type b' ∧
     (∀ f, f ∈ files a ↔ f ∈ files b')).
  { intros b'. unfold __eq__. rewrite <- files_set_eq.
    repeat case_bool_decide; simpl; naive_solver. }
  split; [apply Hiff|]. split; [|split].
  - intros fs Hfs.
    destruct (__eq__ a (ObjArtifactInfo b)) eqn:E.
    + apply Hiff. apply Hiff in E as (? & ? & Hf). simpl.
      split; [done|]. split; [done|]. intros f. rewrite Hf. by rewrite Hfs.
    + apply not_true_is_false. intros E'. apply not_true_iff_false in E.
      apply E. apply Hiff. apply Hiff in E' as (? & ? & Hf). simpl in *.
      split; [done|]. split; [done|]. intros f. rewrite Hf. by rewrite Hfs.
  - intros Hdiff. apply not_true_is_false. intros E.
    apply Hiff in E as (? & ? & Hf). destruct Hdiff as [?|[?|[f Hnf]]]; naive_solver.
  - done.
Qed.

Lemma artifact_info_equality_witness :
  __eq__ (mkArtifactInfo "out" "BIOM" [("a", "biom"); ("b", "log")])
         (ObjArtifactInfo (mkArtifactInfo "out" "BIOM" [("b", "log"); ("a", "biom")]))
  = __eq__ (mkArtifactInfo "out" "BIOM" [("a", "biom"); ("b", "log")])
           (ObjArtifactInfo (mkArtifactInfo "out" "BIOM" [("a", "biom"); ("b", "log")])).
Proof.
  destruct (artifact_info_equality
              (mkArtifactInfo "out" "BIOM" [("a", "biom"); ("b", "log")])
              (mkArtifactInfo "out" "BIOM" [("a", "biom"); ("b", "log")]))
    as (_ & Hperm & _).
  apply (Hperm [("b", "log"); ("a", "biom")]). simpl. apply Permutation_swap.
Defined.

(* ===================================================================== *)
(** ** The transport *)
(* ===================================================================== *)

Section Transport.
Context (env : Env).

Abbreviation send := (QiitaClient.send env).
Abbreviation _fetch_token := (QiitaClient._fetch_token env).
Abbreviation _request_oauth2 := (QiitaClient._request_oauth2 env).
Abbreviation _request_retry_loop := (QiitaClient._request_retry_loop env).
Abbreviation _request_retry := (QiitaClient._request_retry env).
Abbreviation bearer := (QiitaClient.bearer env).

Lemma send_eq e st :
  send e st = (answer env (log (world st) ++ [e]), on_world (record e) st).
Proof. unfold QiitaClient.send, answer. simpl. by destruct (respond _ _). Qed.

Lemma fetch_token_eq st :
  _fetch_token st =
  let st1 := on_world (record (auth_event (self st))) st in
  match answer env (log (world st) ++ [auth_event (self st)]) with
  | Raise e => (Raise e, st1)
  | Ok r =>
      if bool_decide (status_code r ≠ 200)
      then (Raise (ValueError "Can't authenticate with the Qiita server"), st1)
      else match json r with
           | Raise e => (Raise e, st1)
           | Ok j => match subscript j "access_token" with
                     | Raise e => (Raise e, st1)
                     | Ok tok => (Ok tt, set_token tok st1)
                     end
           end
  end.
Proof.
  unfold QiitaClient._fetch_token. unfold_monad. rewrite send_eq.
  fold (auth_event (self st)). simpl.
  destruct (answer env _) as [r|e]; [|done].
  case_bool_decide; [done|].
  destruct (json r) as [j|e]; [|done].
  by destruct (subscript j _).
Qed.

(** A refresh, whatever its outcome, is one authentication call and
    nothing else. *)
Lemma fetch_token_log st :
  log (world (_fetch_token st).2) = log (world st) ++ [auth_event (self st)].
Proof.
  rewrite fetch_token_eq. simpl.
  repeat (match goal with |- context [match ?x with _ => _ end] => destruct x end;
          simpl; try done).
Qed.

Lemma token_expired_true r :
  QiitaClient.token_expired r = Ok true ↔ says_token_expired r.
Proof.
  unfold QiitaClient.token_expired, says_token_expired.
  destruct (json_body r) as [j|]; simpl; [|naive_solver].
  destruct (truthy j) eqn:Ht.
  - destruct j as [|b|n|s|l|d]; simpl; try naive_solver.
    destruct (d !! "error_description") as [v|] eqn:Hv.
    + split.
      * intros [= Heq]. exists d. split; [done|]. rewrite Hv.
        destruct v; simpl in Heq; try done. by apply bool_decide_eq_true in Heq as ->.
      * intros (d' & [= <-] & Hd'). rewrite Hv in Hd'. injection Hd' as ->.
        unfold json_eq_str. by rewrite bool_decide_eq_true_2.
    + split; [done|]. intros (d' & [= <-] & Hd'). by rewrite Hv in Hd'.
  - split; [done|]. intros (d & [= ->] & Hd). simpl in Ht.
    apply negb_false_iff, bool_decide_eq_true in Ht. subst d.
    by rewrite lookup_empty in Hd.
Qed.

(** A body that is not JSON never counts as an expired token. *)
Lemma token_expired_unparseable r :
  json_body r = None → QiitaClient.token_expired r = Ok false.
Proof. unfold QiitaClient.token_expired. by intros ->. Qed.

(** [_request_oauth2], path by path. *)
Lemma request_oauth2_eq req url verify kwargs st :
  let hdrs := <["Authorization" := bearer (self st)]>
                (default ∅ (headers kwargs)) in
  let e1 := EvRequest req url verify hdrs (data kwargs) in
  let st1 := on_world (record e1) st in
  _request_oauth2 req url verify kwargs st =
  match answer env (log (world st) ++ [e1]) with
  | Raise e => (Raise e, st1)
  | Ok r =>
      if bool_decide (status_code r = 400)
      then match QiitaClient.token_expired r with
           | Raise e => (Raise e, st1)
           | Ok false => (Ok r, st1)
           | Ok true =>
               match _fetch_token st1 with
               | (Raise e, st2) => (Raise e, st2)
               | (Ok _, st2) =>
                   send (EvRequest req url verify
                           (<["Authorization" := bearer (self st2)]> hdrs)
                           (data kwargs)) st2
               end
           end
      else (Ok r, st1)
  end.
Proof.
  intros hdrs e1 st1. unfold QiitaClient._request_oauth2. unfold_monad.
  rewrite send_eq. fold hdrs. fold e1. fold st1.
  destruct (answer env _) as [r|e]; [|done].
  case_bool_decide; [|done].
  destruct (QiitaClient.token_expired r) as [[|]|e]; [|done|done].
  by destruct (_fetch_token st1) as [[[]|e] st2].
Qed.

(** One round of the retry loop, given what [_request_oauth2] did. *)
Lemma request_retry_loop_step n last req url kwargs st r st1 :
  _request_oauth2 req url (_verify (self st)) kwargs st = (Ok r, st1) →
  _request_retry_loop (S n) last req url kwargs st =
  if bool_decide (status_code r = 404) then (Raise (NotFoundError (text r)), st1)
  else if bool_decide (status_code r = 403) then (Raise (ForbiddenError (text r)), st1)
  else if bool_decide (status_code r = 400) then (Raise (BadRequestError (text r)), st1)
  else if bool_decide (status_code r = 200) then (Ok (json_body r), st1)
  else _request_retry_loop n (Some r) req url kwargs st1.
Proof.
  intros H. simpl. unfold_monad. rewrite H.
  repeat case_bool_decide; done.
Qed.

Lemma request_retry_loop_raise n last req url kwargs st e st1 :
  _request_oauth2 req url (_verify (self st)) kwargs st = (Raise e, st1) →
  _request_retry_loop (S n) last req url kwargs st = (Raise e, st1).
Proof. intros H. simpl. unfold_monad. by rewrite H. Qed.

Lemma request_retry_eq req url kwargs st :
  _request_retry req url kwargs st =
  _request_retry_loop 2 None req (_server_url (self st) +:+ url) kwargs st.
Proof. done. Qed.

(** The log only grows, and an attempt starts with the request itself. *)
Lemma request_oauth2_log req url verify kwargs st :
  ∃ rest,
    log (world (_request_oauth2 req url verify kwargs st).2) =
    log (world st) ++
      EvRequest req url verify
        (<["Authorization" := bearer (self st)]> (default ∅ (headers kwargs)))
        (data kwargs) :: rest.
Proof.
  rewrite request_oauth2_eq. simpl.
  destruct (answer env _) as [r|e]; [|by exists []].
  case_bool_decide; [|by exists []].
  destruct (QiitaClient.token_expired r) as [[|]|e]; [|by exists []..].
  pose proof (fetch_token_log (on_world (record
    (EvRequest req url verify
       (<["Authorization" := bearer (self st)]> (default ∅ (headers kwargs)))
       (data kwargs))) st)) as Hlog.
  destruct (_fetch_token _) as [[[]|e] st2]; simpl in *.
  - rewrite send_eq. simpl. rewrite Hlog, <- !app_assoc. simpl. eauto.
  - rewrite Hlog, <- !app_assoc. simpl. eauto.
Qed.

Lemma request_retry_loop_log n last req url kwargs st :
  ∃ rest,
    log (world (_request_retry_loop n last req url kwargs st).2) =
    log (world st) ++ rest.
Proof.
  revert last st. induction n as [|n IH]; intros last st.
  - exists []. rewrite app_nil_r. by destruct last.
  - destruct (request_oauth2_log req url (_verify (self st)) kwargs st)
      as [rest Hrest].
    destruct (_request_oauth2 req url (_verify (self st)) kwargs st)
      as [[r|e] st1] eqn:E; simpl in Hrest.
    + rewrite (request_retry_loop_step _ _ _ _ _ _ _ _ E).
      repeat case_bool_decide; try (simpl; by eauto).
      destruct (IH (Some r) st1) as [rest' Hrest'].
      rewrite Hrest', Hrest, <- app_assoc. eauto.
    + rewrite (request_retry_loop_raise _ _ _ _ _ _ _ _ E). simpl. eauto.
Qed.

Lemma request_retry_first_event req url kwargs st :
  ∃ rest,
    log (world (_request_retry req url kwargs st).2) =
    log (world st) ++
      EvRequest req (_server_url (self st) +:+ url) (_verify (self st))
        (<["Authorization" := bearer (self st)]> (default ∅ (headers kwargs)))
        (data kwargs) :: rest.
Proof.
  rewrite request_retry_eq.
  destruct (request_oauth2_log req (_server_url (self st) +:+ url)
              (_verify (self st)) kwargs st) as [rest Hrest].
  destruct (_request_oauth2 req (_server_url (self st) +:+ url)
              (_verify (self st)) kwargs st) as [[r|e] st1] eqn:E; simpl in Hrest.
  - rewrite (request_retry_loop_step _ _ _ _ _ _ _ _ E).
    repeat case_bool_decide; try (simpl; by eauto).
    destruct (request_retry_loop_log 1 (Some r) req
                (_server_url (self st) +:+ url) kwargs st1) as [rest' Hrest'].
    rewrite Hrest', Hrest, <- app_assoc. simpl. eauto.
  - rewrite (request_retry_loop_raise _ _ _ _ _ _ _ _ E). simpl. eauto.
Qed.

Lemma classified_step n last req url kwargs st r st1 :
  _request_oauth2 req url (_verify (self st)) kwargs st = (Ok r, st1) →
  classified r st1 (_request_retry_loop (S n) last req url kwargs st).
Proof.
  intros E. rewrite (request_retry_loop_step _ _ _ _ _ _ _ _ E).
  unfold classified.
  split; [|split; [|split]]; intros Hs; rewrite Hs; simpl; [done..|].
  split; [done|]. by intros ->.
Qed.

Lemma unclassified_step n last req url kwargs st r st1 :
  _request_oauth2 req url (_verify (self st)) kwargs st = (Ok r, st1) →
  unclassified r →
  _request_retry_loop (S n) last req url kwargs st =
  _request_retry_loop n (Some r) req url kwargs st1.
Proof.
  intros E (? & ? & ? & ?). rewrite (request_retry_loop_step _ _ _ _ _ _ _ _ E).
  by rewrite !bool_decide_eq_false_2.
Qed.

(** Whatever response [_request_oauth2] returns (the resent one, when the
    token was refreshed) is classified by its status: 404, 403 and 400
    raise [NotFoundError], [ForbiddenError] and [BadRequestError] with
    the response text, and nothing more is sent; 200 returns the parsed
    body, [None] when there is none to parse. The same holds for the
    second attempt, made after a response with any other status. *)
Theorem request_retry_classifies (req : Method) (url : string)
    (kwargs : Kwargs) (st : ClientState) :
  let full := _server_url (self st) +:+ url in
  ∀ r st1,
    _request_oauth2 req full (_verify (self st)) kwargs st = (Ok r, st1) →
    classified r st1 (_request_retry req url kwargs st) ∧
    (unclassified r →
     ∀ r2 st2,
       _request_oauth2 req full (_verify (self st1)) kwargs st1 = (Ok r2, st2) →
       classified r2 st2 (_request_retry req url kwargs st)).
Proof.
  intros full r st1 E. rewrite request_retry_eq. fold full. split.
  - by apply classified_step.
  - intros Hr r2 st2 E2. rewrite (unclassified_step _ _ _ _ _ _ _ _ E Hr).
    by apply classified_step.
Qed.

(** C3, as the code has it. A connection failure is not retried: the
    [ConnectionError] of the first send leaves [_request_retry] at once.
    What is retried is a response whose status is none of 200, 400, 403,
    404: after two such attempts the call raises a [RuntimeError] whose
    text holds the method name, the full address, the last status code
    and the last response text, and no third attempt is made; an
    exception in the second attempt leaves the call as it is. *)
Theorem request_retry_budget (req : Method) (url : string)
    (kwargs : Kwargs) (st : ClientState) :
  let full := _server_url (self st) +:+ url in
  let e1 := EvRequest req full (_verify (self st))
              (<["Authorization" := bearer (self st)]>
                 (default ∅ (headers kwargs)))
              (data kwargs) in
  (respond env (log (world st) ++ [e1]) = Unreachable →
   _request_retry req url kwargs st
   = (Raise ConnectionError, on_world (record e1) st)) ∧
  (∀ r1 st1,
     _request_oauth2 req full (_verify (self st)) kwargs st = (Ok r1, st1) →
     unclassified r1 →
     (∀ r2 st2,
        _request_oauth2 req full (_verify (self st1)) kwargs st1 = (Ok r2, st2) →
        unclassified r2 →
        _request_retry req url kwargs st
        = (Raise (RuntimeError
                    ("Request '" +:+ __name__ req +:+ " " +:+ full
                     +:+ "' did not succeed. Status code: "
                     +:+ pretty (status_code r2)
                     +:+ ". Message: " +:+ text r2)), st2)) ∧
     (∀ e st2,
        _request_oauth2 req full (_verify (self st1)) kwargs st1 = (Raise e, st2) →
        _request_retry req url kwargs st = (Raise e, st2))).
Proof.
  intros full e1. split.
  - intros Hdown. rewrite request_retry_eq. fold full.
    apply request_retry_loop_raise. rewrite request_oauth2_eq. simpl.
    fold e1. unfold answer. by rewrite Hdown.
  - intros r1 st1 E1 Hr1. rewrite request_retry_eq. fold full.
    rewrite (unclassified_step _ _ _ _ _ _ _ _ E1 Hr1). split.
    + intros r2 st2 E2 Hr2. by rewrite (unclassified_step _ _ _ _ _ _ _ _ E2 Hr2).
    + intros e st2 E2. by apply request_retry_loop_raise.
Qed.

Lemma new_events_app st st' l :
  log (world st') = log (world st) ++ l → new_events st st' = l.
Proof. unfold new_events. intros ->. by rewrite drop_app_length. Qed.

(** C2. One call of [_request_oauth2] whose first response is a 400.
    If its parsed body says the token has expired, one authentication
    call is made, and no second one whatever follows; when it yields a
    token, the same request (method, address, body) is sent once more
    with the new token, and what that brings is the result, also when it
    is an expired-token 400 again. If the body does not say so (not JSON
    at all, or no such description), nothing is sent after the first
    request and the token stays as it was. *)
Theorem token_expiry_refreshes_once (req : Method) (url : string)
    (verify : Verify) (kwargs : Kwargs) (st : ClientState) (r1 : Response) :
  let hdrs := <["Authorization" := bearer (self st)]>
                (default ∅ (headers kwargs)) in
  let e1 := EvRequest req url verify hdrs (data kwargs) in
  let auth := auth_event (self st) in
  let out := _request_oauth2 req url verify kwargs st in
  respond env (log (world st) ++ [e1]) = Reply r1 →
  status_code r1 = 400 →
  (says_token_expired r1 →
     refreshes (new_events st out.2) = 1%nat ∧
     (requests (new_events st out.2) ≤ 2)%nat ∧
     ∀ ra ja tok,
       respond env (log (world st) ++ [e1; auth]) = Reply ra →
       status_code ra = 200 →
       json_body ra = Some ja →
       subscript ja "access_token" = Ok tok →
       let e2 := EvRequest req url verify
                   (<["Authorization" := "Bearer " +:+ QiitaClient.format_s env tok]> hdrs)
                   (data kwargs) in
       log (world out.2) = log (world st) ++ [e1; auth; e2] ∧
       refreshes (new_events st out.2) = 1%nat ∧
       requests (new_events st out.2) = 2%nat ∧
       _token (self out.2) = tok ∧
       out.1 = answer env (log (world st) ++ [e1; auth; e2])) ∧
  (¬ says_token_expired r1 →
     log (world out.2) = log (world st) ++ [e1] ∧
     refreshes (new_events st out.2) = 0%nat ∧
     requests (new_events st out.2) = 1%nat ∧
     self out.2 = self st).
Proof.
  intros hdrs e1 auth out Hr1 H400.
  assert (Ha1 : answer env (log (world st) ++ [e1]) = Ok r1)
    by (unfold answer; by rewrite Hr1).
  pose proof (request_oauth2_eq req url verify kwargs st) as Hout.
  cbv zeta in Hout. fold hdrs in Hout. fold e1 in Hout. fold out in Hout.
  rewrite Ha1, bool_decide_eq_true_2 in Hout by done.
  set (st1 := on_world (record e1) st) in *.
  split.
  - intros Hexp. apply token_expired_true in Hexp. rewrite Hexp in Hout.
    rewrite fetch_token_eq in Hout. cbv zeta in Hout.
    change (self st1) with (self st) in Hout. fold auth in Hout.
    change (log (world st1)) with (log (world st) ++ [e1]) in Hout.
    rewrite <- app_assoc in Hout. change ([e1] ++ [auth]) with [e1; auth] in Hout.
    set (st2 := on_world (record auth) st1) in *.
    assert (Hst2 : log (world st2) = log (world st) ++ [e1; auth]).
    { subst st2 st1. simpl. by rewrite <- app_assoc. }
    assert (Hfail : ∀ e : Exn, out = (Raise e, st2) →
              refreshes (new_events st out.2) = 1%nat ∧
              (requests (new_events st out.2) ≤ 2)%nat).
    { intros e ->. cbn [snd]. rewrite (new_events_app _ _ _ Hst2).
      unfold refreshes, requests. simpl. lia. }
    unfold answer in Hout.
    destruct (respond env (log (world st) ++ [e1; auth])) as [|ra] eqn:Hresp.
    { destruct (Hfail _ Hout). split; [done|]. split; [done|]. by intros. }
    case_bool_decide as H200.
    { destruct (Hfail _ Hout). split; [done|]. split; [done|].
      intros ra' ja tok [= <-]; done. }
    unfold json in Hout.
    destruct (json_body ra) as [j|] eqn:Hj.
    2:{ destruct (Hfail _ Hout). split; [done|]. split; [done|].
        intros ra' ja tok [= <-] _; by rewrite Hj. }
    destruct (subscript j "access_token") as [tok|e] eqn:Htok.
    2:{ destruct (Hfail _ Hout). split; [done|]. split; [done|].
        intros ra' ja tok [= <-] _; rewrite Hj; intros [= <-];
          by rewrite Htok. }
    rewrite send_eq in Hout.
    change (log (world (set_token tok st2))) with (log (world st2)) in Hout.
    rewrite Hst2, <- app_assoc in Hout. simpl "++" in Hout.
    change (QiitaClient.bearer env (self (set_token tok st2)))
      with ("Bearer " +:+ QiitaClient.format_s env tok) in Hout.
    set (e2 := EvRequest req url verify _ (data kwargs)) in Hout.
    assert (Hlog : log (world out.2) = log (world st) ++ [e1; auth; e2]).
    { rewrite Hout. simpl. by rewrite <- !app_assoc. }
    rewrite (new_events_app _ _ _ Hlog).
    split; [done|]. split; [unfold requests; simpl; lia|].
    intros ra' ja tok' [= <-] _. rewrite Hj. intros [= <-].
    rewrite Htok. intros [= <-]. cbv zeta. fold e2.
    split; [exact Hlog|]. rewrite Hout. by repeat split.
  - intros Hnot.
    assert (Hlog : log (world st1) = log (world st) ++ [e1]) by done.
    assert (Hall : ∀ res : Result Response, out = (res, st1) →
              log (world out.2) = log (world st) ++ [e1] ∧
              refreshes (new_events st out.2) = 0%nat ∧
              requests (new_events st out.2) = 1%nat ∧
              self out.2 = self st).
    { intros res ->. cbn [snd]. by rewrite (new_events_app _ _ _ Hlog). }
    destruct (QiitaClient.token_expired r1) as [[|]|e] eqn:Hexp;
      [|by eapply Hall..].
    by apply token_expired_true in Hexp.
Qed.

(** When the authentication call is turned down, the [ValueError] of
    [_fetch_token] leaves [_request_oauth2]: the request is not sent
    again. *)
Lemma refused_refresh_is_not_resent req url verify kwargs st r1 ra :
  let hdrs := <["Authorization" := bearer (self st)]>
                (default ∅ (headers kwargs)) in
  let e1 := EvRequest req url verify hdrs (data kwargs) in
  let out := _request_oauth2 req url verify kwargs st in
  respond env (log (world st) ++ [e1]) = Reply r1 →
  status_code r1 = 400 →
  says_token_expired r1 →
  respond env (log (world st) ++ [e1; auth_event (self st)]) = Reply ra →
  status_code ra ≠ 200 →
  out.1 = Raise (ValueError "Can't authenticate with the Qiita server") ∧
  log (world out.2) = log (world st) ++ [e1; auth_event (self st)].
Proof.
  intros hdrs e1 out Hr1 H400 Hexp Hra Hno.
  pose proof (request_oauth2_eq req url verify kwargs st) as Hout.
  cbv zeta in Hout. fold hdrs in Hout. fold e1 in Hout. fold out in Hout.
  unfold answer in Hout. rewrite Hr1, bool_decide_eq_true_2 in Hout by done.
  apply token_expired_true in Hexp. rewrite Hexp in Hout.
  rewrite fetch_token_eq in Hout. cbv zeta in Hout.
  change (self (on_world (record e1) st)) with (self st) in Hout.
  change (log (world (on_world (record e1) st)))
    with (log (world st) ++ [e1]) in Hout.
  rewrite <- app_assoc in Hout. simpl "++" in Hout. unfold answer in Hout.
  rewrite Hra, bool_decide_eq_true_2 in Hout by done.
  rewrite Hout. simpl. by rewrite <- app_assoc.
Qed.

Lemma patch_data_lookup op path value from_p :
  let d := QiitaClient.patch_data op path value from_p in
  d !! "op" = Some op ∧ d !! "path" = Some path ∧
  d !! "value" = value ∧ d !! "from" = from_p ∧
  (∀ k, is_Some (d !! k) → k ∈ ["op"; "path"; "value"; "from"]).
Proof.
  unfold QiitaClient.patch_data.
  destruct value as [v|], from_p as [f|]; simpl;
    (repeat split; [by simplify_map_eq..|]);
    intros k [x Hk];
    repeat (apply lookup_insert_Some in Hk as [[<- _]|[_ Hk]]; [set_solver|]);
    by rewrite lookup_empty in Hk.
Qed.

(** C7. A misused [patch] raises [ValueError] with the state untouched:
    nothing was sent. Any other call goes to [_request_retry] with a body
    holding [op] and [path], [value] and [from] just when they were
    given, and nothing else; that body is in the first request sent. *)
Theorem patch_contract (url op path : string) (value from_p : option string)
    (kwargs : Kwargs) (st : ClientState) :
  let out := QiitaClient.patch env url op path value from_p kwargs st in
  (patch_misused op value from_p →
     ∃ msg, out = (Raise (ValueError msg), st)) ∧
  (¬ patch_misused op value from_p →
     ∃ d,
       out = _request_retry PATCH url
               {| headers := headers kwargs; data := Some (DataDict d) |} st ∧
       d !! "op" = Some op ∧ d !! "path" = Some path ∧
       d !! "value" = value ∧ d !! "from" = from_p ∧
       (∀ k, is_Some (d !! k) → k ∈ ["op"; "path"; "value"; "from"]) ∧
       ∃ rest,
         log (world out.2) =
         log (world st) ++
           EvRequest PATCH (_server_url (self st) +:+ url) (_verify (self st))
             (<["Authorization" := bearer (self st)]> (default ∅ (headers kwargs)))
             (Some (DataDict d)) :: rest).
Proof.
  intros out. subst out. unfold QiitaClient.patch, patch_misused. split.
  - intros [[Hop ->]|[Hop ->]].
    + rewrite bool_decide_eq_true_2 by done. simpl. eauto.
    + rewrite (bool_decide_eq_true_2 (op ∈ ["move"; "copy"])) by done.
      destruct (bool_decide _ && _); simpl; eauto.
  - intros Hok.
    assert (bool_decide (op ∈ ["add"; "replace"; "test"])
            && QiitaClient.is_None value = false) as ->.
    { apply not_true_is_false. intros [Hop Hv]%andb_true_iff.
      apply bool_decide_eq_true in Hop. destruct value; [done|]. naive_solver. }
    assert (bool_decide (op ∈ ["move"; "copy"])
            && QiitaClient.is_None from_p = false) as ->.
    { apply not_true_is_false. intros [Hop Hv]%andb_true_iff.
      apply bool_decide_eq_true in Hop. destruct from_p; [done|]. naive_solver. }
    exists (QiitaClient.patch_data op path value from_p).
    split; [done|].
    destruct (patch_data_lookup op path value from_p) as (? & ? & ? & ? & ?).
    repeat (split; [done|]).
    apply (request_retry_first_event PATCH url
             {| headers := headers kwargs;
                data := Some (DataDict (QiitaClient.patch_data op path value from_p)) |}).
Qed.

End Transport.

(* ===================================================================== *)
(** ** The heartbeat loop *)
(* ===================================================================== *)

Section HeartbeatProperties.
Context (env : Env).

Abbreviation beat url :=
  (QiitaClient.post env url {| headers := None; data := Some (DataStr "") |}).

Lemma heartbeat_round_unreachable url retries st st1 :
  beat url st = (Raise ConnectionError, st1) →
  _heartbeat_round env url retries st
  = (Ok (retries - 1), slept 30 (slept 300 st1)).
Proof.
  intros H. unfold _heartbeat_round, sleep. unfold_monad. by rewrite H.
Qed.

Lemma heartbeat_round_ok url retries st v st1 :
  beat url st = (Ok v, st1) →
  _heartbeat_round env url retries st = (Ok 2, slept 30 st1).
Proof.
  intros H. unfold _heartbeat_round, sleep. unfold_monad. by rewrite H.
Qed.

Lemma heartbeat_loop_exit fuel url retries st :
  read_JOB_COMPLETED env st = true ∨ retries ≤ 0 →
  _heartbeat_loop env fuel url retries st = Some (Ok tt, st).
Proof.
  intros H.
  assert (negb (read_JOB_COMPLETED env st) && (0 <? retries) = false) as Hg.
  { destruct H as [-> | H]; [done|].
    apply andb_false_iff. right. by apply Z.ltb_ge. }
  destruct fuel; simpl; by rewrite Hg.
Qed.

Lemma heartbeat_loop_step fuel url retries st :
  read_JOB_COMPLETED env st = false → 0 < retries →
  _heartbeat_loop env (S fuel) url retries st =
  match _heartbeat_round env url retries st with
  | (Ok retries, st') => _heartbeat_loop env fuel url retries st'
  | (Raise e, st') => Some (Raise e, st')
  end.
Proof.
  intros Hflag Hpos. simpl. rewrite Hflag.
  by rewrite (proj2 (Z.ltb_lt 0 retries) Hpos).
Qed.


End HeartbeatProperties.

(* ===================================================================== *)
(** ** The plugin entry point *)
(* ===================================================================== *)

Section PluginProperties.
Context (env : Env).

Lemma call_without_onf_fp self server_url job_id output_dir w :
  __dict__ self !! "onf_fp" = None →
  BaseQiitaPlugin.__call__ env self server_url job_id output_dir w
  = (Raise (AttributeError "onf_fp"), w).
Proof.
  intros H. unfold BaseQiitaPlugin.__call__, getattr. unfold_monad.
  by rewrite H.
Qed.

Lemma init_as_constructed name version description conf_fp :
  as_constructed (BaseQiitaPlugin.__init__ env name version description conf_fp).
Proof. split; [done|]. by exists ∅. Qed.

Lemma register_all_as_constructed self commands :
  as_constructed self →
  ∃ self', register_all self commands = Ok self' ∧ as_constructed self'.
Proof.
  revert self. induction commands as [|c cs IH]; intros self Hself.
  - by exists self.
  - destruct Hself as (Hno & d & Hd). simpl.
    unfold BaseQiitaPlugin._register_command, getattr. rewrite Hd.
    apply IH. split; simpl.
    + by rewrite lookup_insert_ne.
    + eexists. apply lookup_insert_eq.
Qed.

(** C9. A plugin as [__init__] builds it, with any commands registered,
    has no attribute [onf_fp]: calling it raises [AttributeError] on that
    name and leaves the world as it was. No file was opened, no token
    asked for, no job information fetched, no heartbeat or completion
    sent. *)
Theorem call_raises_attribute_error (name version description : string)
    (conf_fp : option string) (commands : list QiitaCommand)
    (server_url job_id output_dir : string) (w : World) :
  ∃ plugin,
    register_all (BaseQiitaPlugin.__init__ env name version description conf_fp)
                 commands = Ok plugin ∧
    BaseQiitaPlugin.__call__ env plugin server_url job_id output_dir w
    = (Raise (AttributeError "onf_fp"), w).
Proof.
  destruct (register_all_as_constructed
              (BaseQiitaPlugin.__init__ env name version description conf_fp)
              commands (init_as_constructed _ _ _ _))
    as (plugin & Hreg & Hno & _).
  exists plugin. split; [done|]. by apply call_without_onf_fp.
Qed.

End PluginProperties.

Section RunJob.
Context (env : Env).

Lemma complete_job_eq job_id success error_msg artifacts_info st :
  QiitaClient.complete_job env job_id success error_msg artifacts_info st =
  match QiitaClient.post env ("/qiita_db/jobs/" +:+ job_id +:+ "/complete/")
          {| headers := None;
             data := Some (DataDumps
                             (_format_payload success error_msg artifacts_info)) |}
          (on_world QiitaClient.set_JOB_COMPLETED st) with
  | (Ok _, st') => (Ok tt, st')
  | (Raise e, st') => (Raise e, st')
  end.
Proof. unfold QiitaClient.complete_job. unfold_monad. done. Qed.

(** An exception while fetching the job information leaves [run_job]
    there and then: the state is the one the fetch left, so nothing was
    sent after it and [JOB_COMPLETED] was not touched. *)
Lemma run_job_fetch_fails self job_id output_dir st e st1 :
  QiitaClient.get_job_info env job_id st = (Raise e, st1) →
  BaseQiitaPlugin.run_job env self job_id output_dir st = (Raise e, st1).
Proof. intros H. unfold BaseQiitaPlugin.run_job. unfold_monad. by rewrite H. Qed.

(** A job function that returns: its triple goes into the one call of
    [complete_job] that ends the run. *)
Lemma run_job_returns self job_id output_dir st job_info task_name task st3
    parameters success artifacts_info error_msg st4 :
  dispatched env self job_id output_dir st job_info task_name task st3 →
  BaseQiitaPlugin.job_info_subscript job_info "parameters" = Ok parameters →
  function task job_id parameters output_dir st3
  = (Ok (success, artifacts_info, error_msg), st4) →
  BaseQiitaPlugin.run_job env self job_id output_dir st
  = QiitaClient.complete_job env job_id success error_msg artifacts_info st4.
Proof.
  intros (st1 & st2 & H1 & H2 & H3 & H4 & H5) Hp Hf.
  unfold BaseQiitaPlugin.run_job, QiitaCommand.__call__. unfold_monad.
  by rewrite H1, H2, H3, H4, H5, Hp, Hf.
Qed.

(** A job function that raises: the run still ends with the one call of
    [complete_job], reporting failure, the formatted exception and no
    artifacts. *)
Lemma run_job_captures self job_id output_dir st job_info task_name task st3
    parameters e st4 :
  dispatched env self job_id output_dir st job_info task_name task st3 →
  BaseQiitaPlugin.job_info_subscript job_info "parameters" = Ok parameters →
  function task job_id parameters output_dir st3 = (Raise e, st4) →
  BaseQiitaPlugin.run_job env self job_id output_dir st
  = QiitaClient.complete_job env job_id false
      (Some (failure_message env task_name e)) None st4.
Proof.
  intros (st1 & st2 & H1 & H2 & H3 & H4 & H5) Hp Hf.
  unfold BaseQiitaPlugin.run_job, QiitaCommand.__call__. unfold_monad.
  by rewrite H1, H2, H3, H4, H5, Hp, Hf.
Qed.

Lemma failure_payload msg artifacts_info :
  _format_payload false (Some msg) artifacts_info
  = {| success := false; error := Some msg; artifacts := None |}.
Proof. done. Qed.

End RunJob.

(* ===================================================================== *)
(** ** Concrete runs *)
(* ===================================================================== *)

Lemma token_expiry_refreshes_once_witness :
  let out := QiitaClient._request_oauth2 (env_with server_expiring) GET
               "https://qiita.example/qiita_db/jobs/job-1" VerifyTrue
               no_kwargs st0 in
  refreshes (new_events st0 out.2) = 1%nat ∧
  requests (new_events st0 out.2) = 2%nat ∧
  _token (self out.2) = JStr "fresh" ∧
  out.1 = Ok job_info_response.
Proof.
  destruct (token_expiry_refreshes_once (env_with server_expiring) GET
              "https://qiita.example/qiita_db/jobs/job-1" VerifyTrue
              no_kwargs st0 expired_response) as [Hexp _];
    [vm_compute; reflexivity | reflexivity |].
  destruct Hexp as (_ & _ & Hres).
  { eexists. split; [reflexivity|]. vm_compute. reflexivity. }
  destruct (Hres token_response (JObj {[ "access_token" := JStr "fresh" ]})
              (JStr "fresh"))
    as (_ & Hr & Hq & Ht & Ho);
    [vm_compute; reflexivity | reflexivity | reflexivity
     | vm_compute; reflexivity |].
  cbv zeta. split; [exact Hr|]. split; [exact Hq|]. split; [exact Ht|].
  rewrite Ho. vm_compute. reflexivity.
Defined.

(** Against a server that cannot be reached, [get] sends once and raises
    [ConnectionError]. *)
Lemma unreachable_is_not_retried :
  ¬ retried_when_unreachable (env_with server_down) GET
      "/qiita_db/jobs/job-1" no_kwargs st0.
Proof.
  intros H. destruct (H (λ _, eq_refl)) as [Hn _].
  vm_compute in Hn. discriminate Hn.
Qed.

Lemma request_retry_budget_witness :
  (QiitaClient.get (env_with server_down) "/qiita_db/jobs/job-1" no_kwargs st0).1
  = Raise ConnectionError ∧
  (QiitaClient.get (env_with (server_always error_500)) "/qiita_db/jobs/job-1"
     no_kwargs st0).1
  = Raise (RuntimeError
             "Request 'get https://qiita.example/qiita_db/jobs/job-1' did not succeed. Status code: 500. Message: Internal Server Error").
Proof.
  split.
  - destruct (request_retry_budget (env_with server_down) GET
                "/qiita_db/jobs/job-1" no_kwargs st0) as [Hdown _].
    unfold QiitaClient.get. rewrite Hdown; reflexivity.
  - destruct (request_retry_budget (env_with (server_always error_500)) GET
                "/qiita_db/jobs/job-1" no_kwargs st0) as [_ Hretry].
    set (a1 := QiitaClient._request_oauth2 (env_with (server_always error_500))
                 GET "https://qiita.example/qiita_db/jobs/job-1" VerifyTrue
                 no_kwargs st0).
    set (a2 := QiitaClient._request_oauth2 (env_with (server_always error_500))
                 GET "https://qiita.example/qiita_db/jobs/job-1" VerifyTrue
                 no_kwargs a1.2).
    destruct (Hretry error_500 a1.2) as [Htwice _];
      [vm_compute; reflexivity | by vm_compute |].
    unfold QiitaClient.get.
    rewrite (Htwice error_500 a2.2);
      [vm_compute; reflexivity | vm_compute; reflexivity | by vm_compute].
Defined.

Lemma request_retry_classifies_witness :
  QiitaClient.get (env_with (server_always not_found_404))
    "/qiita_db/jobs/unknown-id" no_kwargs st0
  = (Raise (NotFoundError "no such job"),
     (QiitaClient._request_oauth2 (env_with (server_always not_found_404)) GET
        "https://qiita.example/qiita_db/jobs/unknown-id" VerifyTrue
        no_kwargs st0).2).
Proof.
  destruct (request_retry_classifies (env_with (server_always not_found_404))
              GET "/qiita_db/jobs/unknown-id" no_kwargs st0 not_found_404
              (QiitaClient._request_oauth2 (env_with (server_always not_found_404))
                 GET "https://qiita.example/qiita_db/jobs/unknown-id" VerifyTrue
                 no_kwargs st0).2)
    as [(H404 & _) _]; [vm_compute; reflexivity|].
  unfold QiitaClient.get. rewrite H404; reflexivity.
Defined.

Lemma patch_contract_witness :
  ∃ msg,
    QiitaClient.patch (env_with server_up) "/qiita_db/artifacts/1/" "add" "/x"
      None None no_kwargs st0
    = (Raise (ValueError msg), st0).
Proof.
  destruct (patch_contract (env_with server_up) "/qiita_db/artifacts/1/" "add"
              "/x" None None no_kwargs st0) as [Hbad _].
  apply Hbad. left. split; [|reflexivity].
  apply list_elem_of_here.
Defined.


(** C4, on the code as it is. A plugin with a command that raises, a
    configuration file in place and a server on which everything works:
    the call ends in [AttributeError] before anything is sent, so the job
    is never completed. The [else] branch run on its own, with the client
    the call would have built, does what is asked: one completion,
    reporting failure, the error text and no artifacts. *)
Theorem coordinator_never_reaches_the_job :
  ∃ plugin,
    BaseQiitaPlugin._register_command
      (BaseQiitaPlugin.__init__ (env_with server_up) "demo" "1.0" "A plugin" None)
      failing_validate = Ok plugin ∧
    BaseQiitaPlugin.__call__ (env_with server_up) plugin
      "https://qiita.example" "job-1" "/tmp/out" world0
    = (Raise (AttributeError "onf_fp"), world0) ∧
    let out := BaseQiitaPlugin.run_job (env_with server_up) plugin
                 "job-1" "/tmp/out" st0 in
    out.1 = Ok tt ∧
    filter (is_post_to "https://qiita.example/qiita_db/jobs/job-1/complete/")
           (log (world out.2))
    = [EvRequest POST "https://qiita.example/qiita_db/jobs/job-1/complete/"
         VerifyTrue (<["Authorization" := "Bearer stale"]> ∅)
         (Some (DataDumps {| success := false;
                             error := Some ("Error executing Validate:" +:+ newline +:+ "boom");
                             artifacts := None |}))].
Proof.
  eexists. split; [reflexivity|]. split.
  - by apply call_without_onf_fp.
  - split; vm_compute; reflexivity.
Qed.

(* ===================================================================== *)
(** * Further properties *)
(* ===================================================================== *)

(** ** Artifacts and the payload *)

Lemma eq_ArtifactInfo_iff a b :
  __eq__ a (ObjArtifactInfo b) = true ↔
  output_name a = output_name b ∧ artifact_type a = artifact_type b ∧
  (∀ f, f ∈ files a ↔ f ∈ files b).
Proof.
  unfold __eq__. rewrite <- files_set_eq.
  repeat case_bool_decide; simpl; naive_solver.
Qed.

(** X1. [==] between [ArtifactInfo]s is an equivalence relation, and an
    [ArtifactInfo] never equals [None], a string or an integer. *)
Theorem artifact_info_eq_equivalence (a b c : ArtifactInfo) :
  __eq__ a (ObjArtifactInfo a) = true ∧
  __eq__ a (ObjArtifactInfo b) = __eq__ b (ObjArtifactInfo a) ∧
  (__eq__ a (ObjArtifactInfo b) = true → __eq__ b (ObjArtifactInfo c) = true →
   __eq__ a (ObjArtifactInfo c) = true) ∧
  (∀ other, (∀ x, other ≠ ObjArtifactInfo x) →
     __eq__ a other = false ∧ __ne__ a other = true).
Proof.
  split; [by apply eq_ArtifactInfo_iff|]. split; [|split].
  - destruct (__eq__ a (ObjArtifactInfo b)) eqn:Eab;
      destruct (__eq__ b (ObjArtifactInfo a)) eqn:Eba; try done.
    + apply eq_ArtifactInfo_iff in Eab as (? & ? & Hf).
      apply not_true_iff_false in Eba. destruct Eba.
      apply eq_ArtifactInfo_iff. naive_solver.
    + apply eq_ArtifactInfo_iff in Eba as (? & ? & Hf).
      apply not_true_iff_false in Eab. destruct Eab.
      apply eq_ArtifactInfo_iff. naive_solver.
  - intros (? & ? & Hab)%eq_ArtifactInfo_iff (? & ? & Hbc)%eq_ArtifactInfo_iff.
    apply eq_ArtifactInfo_iff. split; [congruence|]. split; [congruence|].
    intros f. by rewrite Hab, Hbc.
  - intros other Hother. unfold __ne__.
    destruct other as [x| | |]; [by destruct (Hother x)|done..].
Qed.

Lemma artifact_info_eq_equivalence_witness :
  __eq__ (mkArtifactInfo "out" "BIOM" [("a", "biom"); ("b", "log")])
         (ObjArtifactInfo (mkArtifactInfo "out" "BIOM" [("b", "log"); ("a", "biom"); ("b", "log")]))
  = true.
Proof.
  destruct (artifact_info_eq_equivalence
              (mkArtifactInfo "out" "BIOM" [("a", "biom"); ("b", "log")])
              (mkArtifactInfo "out" "BIOM" [("b", "log"); ("a", "biom")])
              (mkArtifactInfo "out" "BIOM" [("b", "log"); ("a", "biom"); ("b", "log")]))
    as (_ & _ & Htrans & _).
  apply Htrans; vm_compute; reflexivity.
Defined.

Lemma artifacts_dict_size_le l : (size (artifacts_dict l) ≤ length l)%nat.
Proof.
  induction l as [|a l IH] using rev_ind; [done|].
  rewrite artifacts_dict_snoc, length_app. simpl.
  destruct (artifacts_dict l !! output_name a) eqn:E.
  - rewrite map_size_insert_Some by eauto. lia.
  - rewrite map_size_insert_None by done. lia.
Qed.

(** X2. The payload never reports more artifacts than it was given, and
    it reports as many exactly when their output names are pairwise
    distinct: a repeated name loses an artifact. *)
Theorem format_payload_keeps_all_iff_distinct (l : list ArtifactInfo) :
  (size (artifacts_dict l) ≤ length l)%nat ∧
  (size (artifacts_dict l) = length l ↔ NoDup (output_name <$> l)) ∧
  (l ≠ [] →
   artifacts (_format_payload true None (Some l)) = Some (artifacts_dict l)).
Proof.
  split; [apply artifacts_dict_size_le|]. split.
  - induction l as [|a l IH] using rev_ind; [split; [constructor|done]|].
    rewrite artifacts_dict_snoc, length_app, fmap_app. simpl.
    rewrite NoDup_app.
    pose proof (artifacts_dict_size_le l) as Hle.
    destruct (artifacts_dict l !! output_name a) as [v|] eqn:E.
    + rewrite map_size_insert_Some by eauto. split; [lia|].
      intros (_ & Hdis & _). exfalso.
      apply artifacts_dict_from in E as (x & Hx & Hname & _).
      apply (Hdis (output_name a)); [|set_solver].
      rewrite <- Hname. apply list_elem_of_fmap. eauto.
    + rewrite map_size_insert_None by done. split.
      * intros Hsz. split; [apply IH; lia|]. split; [|apply NoDup_singleton].
        intros k Hk ->%list_elem_of_singleton.
        assert (output_name a ∈ dom (artifacts_dict l)) as Hdom
          by (rewrite artifacts_dict_dom; set_solver).
        apply elem_of_dom in Hdom as [? Hdom]. congruence.
      * intros (Hnd & _ & _). apply IH in Hnd. lia.
  - intros Hl. destruct l; [done|]. reflexivity.
Qed.

Lemma format_payload_keeps_all_iff_distinct_witness :
  artifacts (_format_payload true None (Some [otu_table]))
  = Some (artifacts_dict [otu_table]).
Proof.
  destruct (format_payload_keeps_all_iff_distinct [otu_table]) as (_ & _ & H).
  apply H. discriminate.
Defined.

(** ** The transport: what a call does to the client and the world *)

Lemma requests_app l1 l2 : requests (l1 ++ l2) = (requests l1 + requests l2)%nat.
Proof. unfold requests. by rewrite filter_app, length_app. Qed.

Lemma refreshes_app l1 l2 :
  refreshes (l1 ++ l2) = (refreshes l1 + refreshes l2)%nat.
Proof. unfold refreshes. by rewrite filter_app, length_app. Qed.

Lemma same_identity_refl c : same_identity c c.
Proof. by repeat split. Qed.

Lemma same_identity_trans c1 c2 c3 :
  same_identity c1 c2 → same_identity c2 c3 → same_identity c1 c3.
Proof. unfold same_identity. intuition congruence. Qed.

Lemma auth_event_identity c c' : same_identity c c' → auth_event c' = auth_event c.
Proof. intros (? & ? & ? & ? & ?). unfold auth_event. congruence. Qed.

Lemma after_network_refl st : after_network st st [].
Proof.
  split; [apply same_identity_refl|]. split; [done|].
  split; [by rewrite app_nil_r|constructor].
Qed.

Lemma after_network_trans st1 st2 st3 l1 l2 :
  after_network st1 st2 l1 → after_network st2 st3 l2 →
  after_network st1 st3 (l1 ++ l2).
Proof.
  intros (Hi1 & Hf1 & Hl1 & Hn1) (Hi2 & Hf2 & Hl2 & Hn2).
  split; [by eapply same_identity_trans|]. split; [congruence|].
  split; [by rewrite Hl2, Hl1, app_assoc|by apply Forall_app].
Qed.

Section TransportInvariants.
Context (env : Env).

Lemma send_after e st :
  is_network e = true → after_network st (QiitaClient.send env e st).2 [e].
Proof.
  intros He. rewrite send_eq. simpl.
  split; [apply same_identity_refl|]. split; [done|]. split; [done|].
  by repeat constructor.
Qed.

Lemma fetch_token_after st :
  after_network st (QiitaClient._fetch_token env st).2 [auth_event (self st)].
Proof.
  split; [|split; [|split]].
  - rewrite fetch_token_eq. cbv zeta.
    repeat (match goal with
            | |- context [match ?x with _ => _ end] => destruct x
            end; simpl; try (by repeat split)).
  - rewrite fetch_token_eq. cbv zeta.
    repeat (match goal with
            | |- context [match ?x with _ => _ end] => destruct x
            end; simpl; try done).
  - apply fetch_token_log.
  - by repeat constructor.
Qed.

Lemma request_oauth2_after req url verify kwargs st :
  ∃ l, after_network st (QiitaClient._request_oauth2 env req url verify kwargs st).2 l ∧
       (1 ≤ requests l ≤ 2)%nat ∧ (refreshes l ≤ 1)%nat.
Proof.
  rewrite request_oauth2_eq. cbv zeta.
  set (e1 := EvRequest req url verify _ (data kwargs)).
  assert (H1 : after_network st (on_world (record e1) st) [e1]).
  { pose proof (send_after e1 st eq_refl) as H. by rewrite send_eq in H. }
  assert (Hone : ∀ res : Result Response,
            ∃ l, after_network st (res, on_world (record e1) st).2 l ∧
                 (1 ≤ requests l ≤ 2)%nat ∧ (refreshes l ≤ 1)%nat).
  { intros res. exists [e1]. split; [done|]. unfold requests, refreshes. simpl. lia. }
  destruct (answer env _) as [r|e]; [|apply Hone].
  case_bool_decide; [|apply Hone].
  destruct (QiitaClient.token_expired r) as [[|]|e]; [|apply Hone..].
  pose proof (fetch_token_after (on_world (record e1) st)) as H2.
  change (self (on_world (record e1) st)) with (self st) in H2.
  pose proof (after_network_trans _ _ _ _ _ H1 H2) as H12.
  destruct (QiitaClient._fetch_token env (on_world (record e1) st))
    as [[[]|e] st2]; simpl in H12.
  - set (e2 := EvRequest req url verify _ (data kwargs)).
    pose proof (send_after e2 st2 eq_refl) as H3.
    exists (([e1] ++ [auth_event (self st)]) ++ [e2]).
    split; [by eapply after_network_trans|].
    unfold requests, refreshes. simpl. lia.
  - exists ([e1] ++ [auth_event (self st)]). split; [done|].
    unfold requests, refreshes. simpl. lia.
Qed.

Lemma request_retry_loop_after n last req url kwargs st :
  ∃ l, after_network st
         (QiitaClient._request_retry_loop env n last req url kwargs st).2 l ∧
       (requests l ≤ 2 * n)%nat ∧ (refreshes l ≤ n)%nat ∧
       (n ≠ 0%nat → 1 ≤ requests l)%nat.
Proof.
  revert last st. induction n as [|n IH]; intros last st.
  - exists []. split; [|by unfold requests, refreshes; simpl; lia].
    destruct last; apply after_network_refl.
  - destruct (request_oauth2_after req url (_verify (self st)) kwargs st)
      as (l1 & Hfst & Hreq1 & Href1).
    destruct (QiitaClient._request_oauth2 env req url (_verify (self st)) kwargs st)
      as [[r|e] st1] eqn:E; simpl in Hfst.
    + rewrite (request_retry_loop_step _ _ _ _ _ _ _ _ _ E).
      assert (Hstop : ∀ res : Result (option JSON),
                ∃ l, after_network st (res, st1).2 l ∧
                     (requests l ≤ 2 * S n)%nat ∧ (refreshes l ≤ S n)%nat ∧
                     (S n ≠ 0%nat → 1 ≤ requests l)%nat).
      { intros res. exists l1. split; [done|]. lia. }
      repeat case_bool_decide; try apply Hstop.
      destruct (IH (Some r) st1) as (l2 & Hsnd & Hreq2 & Href2 & _).
      exists (l1 ++ l2). split; [by eapply after_network_trans|].
      rewrite requests_app, refreshes_app. lia.
    + rewrite (request_retry_loop_raise _ _ _ _ _ _ _ _ _ E).
      exists l1. split; [done|]. lia.
Qed.

(** X3. A transport call sends at least one and at most four requests
    and asks for a token at most twice; it does nothing else: no sleep,
    no thread, no file. *)
Theorem request_retry_effort (req : Method) (url : string) (kwargs : Kwargs)
    (st : ClientState) :
  let out := QiitaClient._request_retry env req url kwargs st in
  let l := new_events st out.2 in
  log (world out.2) = log (world st) ++ l ∧
  Forall (λ e, is_network e = true) l ∧
  (1 ≤ requests l ≤ 4)%nat ∧
  (refreshes l ≤ 2)%nat.
Proof.
  intros out l. subst l out. rewrite request_retry_eq.
  destruct (request_retry_loop_after 2 None req
              (_server_url (self st) +:+ url) kwargs st)
    as (l & (_ & _ & Hlog & Hnet) & Hreq & Href & Hpos).
  rewrite (new_events_app _ _ _ Hlog). split; [done|]. split; [done|].
  split; [|done]. split; [by apply Hpos|lia].
Qed.

(** X4. A transport call changes nothing of the client but its token,
    and never touches [JOB_COMPLETED]; the same holds for [patch],
    whether it is sent or refused. *)
Theorem transport_keeps_identity (req : Method) (url : string)
    (kwargs : Kwargs) (st : ClientState) :
  (let out := QiitaClient._request_retry env req url kwargs st in
   same_identity (self st) (self out.2) ∧
   JOB_COMPLETED (world out.2) = JOB_COMPLETED (world st)) ∧
  (∀ op path value from_p,
     let out := QiitaClient.patch env url op path value from_p kwargs st in
     same_identity (self st) (self out.2) ∧
     JOB_COMPLETED (world out.2) = JOB_COMPLETED (world st)).
Proof.
  assert (Hany : ∀ req url kwargs,
            let out := QiitaClient._request_retry env req url kwargs st in
            same_identity (self st) (self out.2) ∧
            JOB_COMPLETED (world out.2) = JOB_COMPLETED (world st)).
  { intros req' url' kwargs'. cbv zeta. rewrite request_retry_eq.
    destruct (request_retry_loop_after 2 None req'
                (_server_url (self st) +:+ url') kwargs' st)
      as (l & (Hid & Hflag & _) & _). done. }
  split; [apply Hany|].
  intros op path value from_p. cbv zeta. unfold QiitaClient.patch.
  destruct (bool_decide _ && _);
    [split; [apply same_identity_refl|done]|].
  destruct (bool_decide _ && _);
    [split; [apply same_identity_refl|done]|].
  apply Hany.
Qed.

(** X5. [_fetch_token] replaces the token only when the server answers
    200 with a JSON object that has an [access_token], and then by that
    value; in every other case the client is left as it was. Either way
    it makes the one authentication call. *)
Theorem fetch_token_outcome (st : ClientState) :
  let out := QiitaClient._fetch_token env st in
  log (world out.2) = log (world st) ++ [auth_event (self st)] ∧
  (out.1 = Ok tt →
   ∃ r j, respond env (log (world st) ++ [auth_event (self st)]) = Reply r ∧
          status_code r = 200 ∧ json_body r = Some j ∧
          subscript j "access_token" = Ok (_token (self out.2))) ∧
  (out.1 ≠ Ok tt → self out.2 = self st) ∧
  (∀ r, respond env (log (world st) ++ [auth_event (self st)]) = Reply r →
        status_code r ≠ 200 →
        out.1 = Raise (ValueError "Can't authenticate with the Qiita server")).
Proof.
  cbv zeta. split; [apply fetch_token_log|].
  rewrite fetch_token_eq. cbv zeta. unfold answer, json.
  destruct (respond env _) as [|r] eqn:Hr; simpl.
  { split; [done|]. split; [done|]. by intros. }
  case_bool_decide as H200; simpl.
  { split; [done|]. split; [done|]. by intros r' [= <-]. }
  destruct (json_body r) as [j|] eqn:Hj; simpl.
  2:{ split; [done|]. split; [done|]. by intros r' [= <-]. }
  destruct (subscript j "access_token") as [tok|e] eqn:Htok; simpl.
  2:{ split; [done|]. split; [done|]. by intros r' [= <-]. }
  split; [intros _; by exists r, j|]. split; [done|]. by intros r' [= <-].
Qed.

Lemma request_retry_200 req url kwargs st r :
  let e1 := EvRequest req (_server_url (self st) +:+ url) (_verify (self st))
              (<["Authorization" := QiitaClient.bearer env (self st)]>
                 (default ∅ (headers kwargs)))
              (data kwargs) in
  respond env (log (world st) ++ [e1]) = Reply r →
  status_code r = 200 →
  QiitaClient._request_retry env req url kwargs st
  = (Ok (json_body r), on_world (record e1) st).
Proof.
  intros e1 Hr H200. rewrite request_retry_eq.
  assert (E : QiitaClient._request_oauth2 env req
                (_server_url (self st) +:+ url) (_verify (self st)) kwargs st
              = (Ok r, on_world (record e1) st)).
  { rewrite request_oauth2_eq. cbv zeta. fold e1. unfold answer.
    rewrite Hr, H200. done. }
  rewrite (request_retry_loop_step _ _ _ _ _ _ _ _ _ E), H200. done.
Qed.

(** X6. When the first answer to a transport call has status 200, the
    call returns its parsed body after that one request: no
    authentication call, no second request and the client untouched,
    whatever the body says. *)
Theorem first_answer_200_is_returned (req : Method) (url : string)
    (kwargs : Kwargs) (st : ClientState) (r : Response) :
  let e1 := EvRequest req (_server_url (self st) +:+ url) (_verify (self st))
              (<["Authorization" := QiitaClient.bearer env (self st)]>
                 (default ∅ (headers kwargs)))
              (data kwargs) in
  let out := QiitaClient._request_retry env req url kwargs st in
  respond env (log (world st) ++ [e1]) = Reply r →
  status_code r = 200 →
  out.1 = Ok (json_body r) ∧
  new_events st out.2 = [e1] ∧
  refreshes (new_events st out.2) = 0%nat ∧
  self out.2 = self st.
Proof.
  intros e1 out Hr H200. subst out.
  pose proof (request_retry_200 _ _ _ _ _ Hr H200) as E.
  cbv zeta in E. fold e1 in E. rewrite E. cbn [fst snd].
  assert (Hlog : log (world (on_world (record e1) st)) = log (world st) ++ [e1])
    by done.
  rewrite (new_events_app _ _ _ Hlog). done.
Qed.

(** X7. The first request of a transport call goes to the server address
    followed by the given path, with the client's [verify], the caller's
    body, and the caller's headers but for [Authorization], which is the
    client's bearer token whatever the caller had put there. *)
Theorem first_request_headers (req : Method) (url : string)
    (kwargs : Kwargs) (st : ClientState) :
  ∃ hdrs rest,
    log (world (QiitaClient._request_retry env req url kwargs st).2)
    = log (world st) ++
        EvRequest req (_server_url (self st) +:+ url) (_verify (self st))
                  hdrs (data kwargs) :: rest ∧
    hdrs !! "Authorization" = Some (QiitaClient.bearer env (self st)) ∧
    ∀ k, k ≠ "Authorization" → hdrs !! k = default ∅ (headers kwargs) !! k.
Proof.
  destruct (request_retry_first_event env req url kwargs st) as [rest Hrest].
  eexists _, rest. split; [exact Hrest|]. split.
  - apply lookup_insert_eq.
  - intros k Hk. by rewrite lookup_insert_ne.
Qed.

(** X8. [patch] builds the body itself: whatever [data] the caller
    passed is replaced, for every operation. An operation other than the
    five that need an argument (such as [remove]) is never refused: with
    whatever [value] and [from] given or left out it is sent, its body
    holding [op], [path], and [value] and [from] just when they were
    given, so just [op] and [path] when neither was. *)
Theorem patch_builds_its_own_body (url op path : string) (kwargs : Kwargs)
    (st : ClientState) :
  (∀ value from_p d,
     QiitaClient.patch env url op path value from_p
       {| headers := headers kwargs; data := d |} st
     = QiitaClient.patch env url op path value from_p kwargs st) ∧
  (op ∉ ["add"; "replace"; "test"; "move"; "copy"] →
   ∀ value from_p,
     ∃ body,
       QiitaClient.patch env url op path value from_p kwargs st
       = QiitaClient._request_retry env PATCH url
           {| headers := headers kwargs; data := Some (DataDict body) |} st ∧
       body !! "op" = Some op ∧ body !! "path" = Some path ∧
       body !! "value" = value ∧ body !! "from" = from_p ∧
       (∀ k, is_Some (body !! k) → k ∈ ["op"; "path"; "value"; "from"]) ∧
       (value = None → from_p = None →
        body = <["op" := op]> (<["path" := path]> ∅))).
Proof.
  split.
  - intros value from_p d. unfold QiitaClient.patch. simpl.
    by repeat destruct (bool_decide _ && _).
  - intros Hop value from_p.
    exists (QiitaClient.patch_data op path value from_p).
    destruct (patch_data_lookup op path value from_p) as (? & ? & ? & ? & ?).
    split; [|repeat (split; [done|]); by intros -> ->].
    unfold QiitaClient.patch.
    rewrite (bool_decide_eq_false_2 (op ∈ ["add"; "replace"; "test"]))
      by set_solver.
    rewrite (bool_decide_eq_false_2 (op ∈ ["move"; "copy"])) by set_solver.
    done.
Qed.

End TransportInvariants.

(** ** Heartbeat, completion and the other shortcuts *)

Lemma network_is_not_thread_start l :
  Forall (λ e, is_network e = true) l →
  Forall (λ e, is_thread_start e = false) l.
Proof. intros H. eapply Forall_impl; [exact H|]. by intros []. Qed.

Section Shortcuts.
Context (env : Env).

Lemma request_retry_after req url kwargs st :
  ∃ l, after_network st (QiitaClient._request_retry env req url kwargs st).2 l.
Proof.
  rewrite request_retry_eq.
  destruct (request_retry_loop_after env 2 None req
              (_server_url (self st) +:+ url) kwargs st) as (l & Hl & _).
  eauto.
Qed.

Lemma complete_job_flag job_id success error_msg artifacts_info st :
  JOB_COMPLETED
    (world (QiitaClient.complete_job env job_id success error_msg
              artifacts_info st).2) = true.
Proof.
  rewrite complete_job_eq.
  destruct (request_retry_after POST ("/qiita_db/jobs/" +:+ job_id +:+ "/complete/")
              {| headers := None;
                 data := Some (DataDumps
                                 (_format_payload success error_msg artifacts_info)) |}
              (on_world QiitaClient.set_JOB_COMPLETED st))
    as (l & _ & Hflag & _).
  unfold QiitaClient.post.
  destruct (QiitaClient._request_retry _ _ _ _ _) as [[v|e] st']; exact Hflag.
Qed.

(** X9. [start_heartbeat] starts the thread only after its own first
    call has gone through: when that call raises, the exception leaves
    [start_heartbeat] and no thread was started; when it returns, one
    thread is started, on the job's heartbeat path, as the last thing
    done. *)
Theorem start_heartbeat_thread (job_id : string) (st : ClientState) :
  let url := "/qiita_db/jobs/" +:+ job_id +:+ "/heartbeat/" in
  let first := heartbeat_post env url st in
  let out := QiitaClient.start_heartbeat env job_id st in
  (∀ e, first.1 = Raise e →
     out = (Raise e, first.2) ∧
     Forall (λ ev, is_thread_start ev = false) (new_events st out.2)) ∧
  (∀ v, first.1 = Ok v →
     out = (Ok tt, on_world (record (EvThreadStart url)) first.2) ∧
     new_events st out.2 = new_events st first.2 ++ [EvThreadStart url] ∧
     Forall (λ ev, is_thread_start ev = false) (new_events st first.2)).
Proof.
  intros url first out.
  destruct (request_retry_after POST url
              {| headers := None; data := Some (DataStr "") |} st)
    as (l & _ & _ & Hlog & Hnet).
  fold (QiitaClient.post env url {| headers := None; data := Some (DataStr "") |} st)
    in Hlog.
  fold (heartbeat_post env url st) in Hlog. fold first in Hlog.
  assert (Hout : out = match first with
                       | (Ok _, st') => (Ok tt, on_world (record (EvThreadStart url)) st')
                       | (Raise e, st') => (Raise e, st')
                       end).
  { subst out first. unfold QiitaClient.start_heartbeat, heartbeat_post.
    unfold_monad. fold url. by destruct (QiitaClient.post _ _ _ _) as [[]]. }
  split.
  - intros e He. destruct first as [[v|e'] st1]; simpl in *; [done|].
    injection He as ->. rewrite Hout. split; [done|]. cbn [snd].
    rewrite (new_events_app _ _ _ Hlog). by apply network_is_not_thread_start.
  - intros v Hv. destruct first as [[v'|e'] st1]; simpl in *; [|done].
    rewrite Hout. split; [done|]. cbn [snd].
    rewrite (new_events_app _ _ _ Hlog). split.
    + apply new_events_app. simpl. by rewrite Hlog, <- app_assoc.
    + by apply network_is_not_thread_start.
Qed.

(** X10. [complete_job] sets [JOB_COMPLETED] before it posts: the flag is
    set when it ends, whether the post went through or raised, and the
    first thing sent is the [POST] of the payload to the job's completion
    path. *)
Theorem complete_job_sets_flag_first (job_id : string) (success : bool)
    (error_msg : option string) (artifacts_info : option (list ArtifactInfo))
    (st : ClientState) :
  let out := QiitaClient.complete_job env job_id success error_msg
               artifacts_info st in
  JOB_COMPLETED (world out.2) = true ∧
  ∃ rest,
    log (world out.2)
    = log (world st) ++
        EvRequest POST
          (_server_url (self st) +:+ "/qiita_db/jobs/" +:+ job_id +:+ "/complete/")
          (_verify (self st))
          (<["Authorization" := QiitaClient.bearer env (self st)]> ∅)
          (Some (DataDumps (_format_payload success error_msg artifacts_info)))
        :: rest.
Proof.
  cbv zeta. split; [apply complete_job_flag|].
  rewrite complete_job_eq.
  destruct (request_retry_first_event env POST
              ("/qiita_db/jobs/" +:+ job_id +:+ "/complete/")
              {| headers := None;
                 data := Some (DataDumps
                                 (_format_payload success error_msg artifacts_info)) |}
              (on_world QiitaClient.set_JOB_COMPLETED st)) as [rest Hrest].
  exists rest. unfold QiitaClient.post.
  destruct (QiitaClient._request_retry _ _ _ _ _) as [[v|e] st']; exact Hrest.
Qed.

(** X11. Once [complete_job] has run, with whatever outcome, a heartbeat
    loop on the state it left ends at once: nothing is sent, nothing is
    slept. *)
Theorem heartbeat_stops_after_completion (job_id : string) (success : bool)
    (error_msg : option string) (artifacts_info : option (list ArtifactInfo))
    (st : ClientState) (fuel : nat) (url : string) :
  let done := (QiitaClient.complete_job env job_id success error_msg
                 artifacts_info st).2 in
  _heartbeat env fuel url done = Some (Ok tt, done).
Proof.
  cbv zeta. unfold _heartbeat. apply heartbeat_loop_exit. left.
  unfold read_JOB_COMPLETED. by rewrite complete_job_flag.
Qed.

(** X12. Against a server that answers every call with status 200, and
    with nobody setting [JOB_COMPLETED], the heartbeat never ends by
    itself: however many rounds it is given, it is still running after
    them. *)
Theorem heartbeat_keeps_beating (url : string) (st : ClientState) :
  (∀ l, ∃ r, respond env l = Reply r ∧ status_code r = 200) →
  (∀ l, completed_elsewhere env l = false) →
  JOB_COMPLETED (world st) = false →
  ∀ fuel, _heartbeat env fuel url st = None.
Proof.
  intros Hup Hnobody Hflag fuel. unfold _heartbeat.
  assert (Hgen : ∀ retries st, 0 < retries → JOB_COMPLETED (world st) = false →
                   _heartbeat_loop env fuel url retries st = None);
    [|by apply Hgen].
  clear st Hflag. induction fuel as [|fuel IH]; intros retries st Hpos Hflag.
  - simpl. unfold read_JOB_COMPLETED. rewrite Hflag, Hnobody. simpl.
    by rewrite (proj2 (Z.ltb_lt 0 retries) Hpos).
  - rewrite heartbeat_loop_step;
      [|by unfold read_JOB_COMPLETED; rewrite Hflag, Hnobody|done].
    set (e1 := EvRequest POST (_server_url (self st) +:+ url) (_verify (self st))
                 (<["Authorization" := QiitaClient.bearer env (self st)]> ∅)
                 (Some (DataStr ""))).
    destruct (Hup (log (world st) ++ [e1])) as (r & Hr & H200).
    pose proof (request_retry_200 env POST url
                  {| headers := None; data := Some (DataStr "") |} st r Hr H200)
      as Hpost.
    rewrite (heartbeat_round_ok env url retries st (json_body r)
               (on_world (record e1) st) Hpost).
    by apply IH.
Qed.

(** X13. An exception of the heartbeat call that is not a connection
    failure ends the loop in that round, before any sleep: an error the
    client raised for a 404, 403 or 400 goes out as it is, anything else
    as a [RuntimeError] quoting it. *)
Theorem heartbeat_raises (url : string) (st st1 : ClientState) (e : Exn) :
  read_JOB_COMPLETED env st = false →
  heartbeat_post env url st = (Raise e, st1) →
  e ≠ ConnectionError →
  ∀ fuel,
    _heartbeat env (S fuel) url st = Some (Raise (heartbeat_error env e), st1) ∧
    (is_QiitaClientError e = true → heartbeat_error env e = e) ∧
    (is_QiitaClientError e = false →
     heartbeat_error env e
     = RuntimeError ("Error executing heartbeat: " +:+ str_exn env e)).
Proof.
  intros Hflag Hpost Hne fuel. split.
  - unfold _heartbeat. rewrite heartbeat_loop_step by done.
    unfold _heartbeat_round, heartbeat_post in *. unfold_monad.
    rewrite Hpost. unfold heartbeat_error.
    destruct e; try done; simpl; done.
  - unfold heartbeat_error. split; by intros ->.
Qed.

(** X14. A round that succeeds wipes out the failure before it: after a
    failed round and a successful one the loop goes on exactly as a
    heartbeat freshly started from the state reached. *)
Theorem heartbeat_success_restores_budget (url : string)
    (st st1 st2 : ClientState) (v : option JSON) :
  read_JOB_COMPLETED env st = false →
  heartbeat_post env url st = (Raise ConnectionError, st1) →
  read_JOB_COMPLETED env (slept 30 (slept 300 st1)) = false →
  heartbeat_post env url (slept 30 (slept 300 st1)) = (Ok v, st2) →
  ∀ fuel,
    _heartbeat env (S (S fuel)) url st = _heartbeat env fuel url (slept 30 st2).
Proof.
  intros Hflag1 Hpost1 Hflag2 Hpost2 fuel. unfold _heartbeat.
  rewrite heartbeat_loop_step by done.
  rewrite (heartbeat_round_unreachable env _ _ _ _ Hpost1).
  rewrite heartbeat_loop_step by (done || lia).
  by rewrite (heartbeat_round_ok env _ _ _ _ _ Hpost2).
Qed.

(** X15. [update_job_step] posts the dumped [{'step': new_step}] to the
    job's step path and, unlike [complete_job], leaves [JOB_COMPLETED]
    as it is; an exception of the post is its own. *)
Theorem update_job_step_keeps_running (dumps : gmap string string → string)
    (job_id new_step : string) (st : ClientState) :
  let out := update_job_step env dumps job_id new_step st in
  let sent := QiitaClient.post env ("/qiita_db/jobs/" +:+ job_id +:+ "/step/")
                {| headers := None;
                   data := Some (DataStr (dumps {[ "step" := new_step ]})) |} st in
  JOB_COMPLETED (world out.2) = JOB_COMPLETED (world st) ∧
  out.2 = sent.2 ∧
  (∀ e, sent.1 = Raise e → out.1 = Raise e) ∧
  (∀ v, sent.1 = Ok v → out.1 = Ok tt) ∧
  ∃ rest,
    log (world out.2)
    = log (world st) ++
        EvRequest POST
          (_server_url (self st) +:+ "/qiita_db/jobs/" +:+ job_id +:+ "/step/")
          (_verify (self st))
          (<["Authorization" := QiitaClient.bearer env (self st)]> ∅)
          (Some (DataStr (dumps {[ "step" := new_step ]})))
        :: rest.
Proof.
  intros out sent.
  assert (Hout : out = match sent with
                       | (Ok _, st') => (Ok tt, st')
                       | (Raise e, st') => (Raise e, st')
                       end).
  { subst out sent. unfold update_job_step. unfold_monad.
    by destruct (QiitaClient.post _ _ _ _) as [[]]. }
  destruct (request_retry_after POST ("/qiita_db/jobs/" +:+ job_id +:+ "/step/")
              {| headers := None;
                 data := Some (DataStr (dumps {[ "step" := new_step ]})) |} st)
    as (l & _ & Hflag & _).
  destruct (request_retry_first_event env POST
              ("/qiita_db/jobs/" +:+ job_id +:+ "/step/")
              {| headers := None;
                 data := Some (DataStr (dumps {[ "step" := new_step ]})) |} st)
    as [rest Hrest].
  fold (QiitaClient.post env ("/qiita_db/jobs/" +:+ job_id +:+ "/step/")
          {| headers := None;
             data := Some (DataStr (dumps {[ "step" := new_step ]})) |} st)
    in Hflag, Hrest.
  fold sent in Hflag, Hrest. rewrite Hout.
  destruct sent as [[v|e] st']; simpl in *.
  - split; [done|]. split; [done|]. split; [done|]. split; [done|]. eauto.
  - split; [done|]. split; [done|]. split; [by intros ? [= <-]|].
    split; [done|]. eauto.
Qed.

(** X16. Building a client makes one authentication call, to the server
    address followed by [/qiita_db/authenticate/], with the client id,
    the secret and grant type [client], verified with the certificate
    when a non-empty one is given and in the standard way otherwise. The
    client exists only if the server answers 200 with an
    [access_token], which becomes its token; a refusal is a
    [ValueError], an unreachable server a [ConnectionError]. *)
Theorem client_init (server_url client_id client_secret : string)
    (server_cert : option string) (w : World) :
  let auth := EvAuthenticate (server_url +:+ "/qiita_db/authenticate/")
                (verify_of server_cert)
                (<["client_id" := client_id]>
                   (<["client_secret" := client_secret]>
                      (<["grant_type" := "client"]> ∅))) in
  let out := QiitaClient.__init__ env server_url client_id client_secret
               server_cert w in
  log out.2 = log w ++ [auth] ∧
  JOB_COMPLETED out.2 = JOB_COMPLETED w ∧
  (∀ c, out.1 = Ok c →
     _server_url c = server_url ∧ _verify c = verify_of server_cert ∧
     _client_id c = client_id ∧ _client_secret c = client_secret ∧
     _authenticate_url c = server_url +:+ "/qiita_db/authenticate/" ∧
     ∃ r j, respond env (log w ++ [auth]) = Reply r ∧ status_code r = 200 ∧
            json_body r = Some j ∧ subscript j "access_token" = Ok (_token c)) ∧
  (∀ r, respond env (log w ++ [auth]) = Reply r → status_code r ≠ 200 →
        out.1 = Raise (ValueError "Can't authenticate with the Qiita server")) ∧
  (respond env (log w ++ [auth]) = Unreachable → out.1 = Raise ConnectionError).
Proof.
  intros auth out. subst out. unfold QiitaClient.__init__.
  fold (verify_of server_cert).
  rewrite fetch_token_eq. cbv zeta. unfold auth_event. simpl.
  fold auth. unfold answer, json.
  destruct (respond env (log w ++ [auth])) as [|r] eqn:Hr; simpl.
  { repeat (split; [done|]). done. }
  case_bool_decide as H200; simpl.
  { split; [done|]. split; [done|]. split; [done|]. split; [|done].
    by intros r' [= <-]. }
  destruct (json_body r) as [j|] eqn:Hj; simpl.
  2:{ split; [done|]. split; [done|]. split; [done|]. split; [|done].
      by intros r' [= <-]. }
  destruct (subscript j "access_token") as [tok|e] eqn:Htok; simpl.
  2:{ split; [done|]. split; [done|]. split; [done|]. split; [|done].
      by intros r' [= <-]. }
  split; [done|]. split; [done|]. split.
  - intros c [= <-]. simpl. repeat (split; [done|]). by exists r, j.
  - split; [|done]. by intros r' [= <-].
Qed.

End Shortcuts.

(** ** The plugin: registration and the run of a job *)

Lemma store_commands_snoc d l c :
  store_commands d (l ++ [c]) = <[name c := c]> (store_commands d l).
Proof. unfold store_commands. by rewrite foldl_snoc. Qed.

Lemma store_commands_last d l1 c l2 :
  Forall (λ c', name c' ≠ name c) l2 →
  store_commands d (l1 ++ c :: l2) !! name c = Some c.
Proof.
  induction l2 as [|c' l2 IH] using rev_ind; intros Hl2.
  - rewrite store_commands_snoc. apply lookup_insert_eq.
  - apply Forall_app in Hl2 as [Hl2 Hc']. rewrite Forall_singleton in Hc'.
    replace (l1 ++ c :: l2 ++ [c']) with ((l1 ++ c :: l2) ++ [c'])
      by (by rewrite <- app_assoc).
    rewrite store_commands_snoc, lookup_insert_ne by done. by apply IH.
Qed.

Lemma store_commands_other d l s :
  s ∉ name <$> l → store_commands d l !! s = d !! s.
Proof.
  induction l as [|c l IH] using rev_ind; [done|].
  rewrite fmap_app, not_elem_of_app. simpl. intros [Hl Hc].
  rewrite store_commands_snoc, lookup_insert_ne by set_solver. by apply IH.
Qed.

Lemma register_all_stores self d commands :
  __dict__ self !! "task_dict" = Some (ATaskDict d) →
  ∃ self',
    register_all self commands = Ok self' ∧
    __dict__ self' !! "task_dict" = Some (ATaskDict (store_commands d commands)) ∧
    ∀ k, k ≠ "task_dict" → __dict__ self' !! k = __dict__ self !! k.
Proof.
  revert self d. induction commands as [|c cs IH]; intros self d Hd.
  - exists self. by repeat split.
  - simpl. unfold BaseQiitaPlugin._register_command, getattr. rewrite Hd.
    destruct (IH {| __dict__ := <["task_dict" := ATaskDict (<[name c := c]> d)]>
                                  (__dict__ self) |} (<[name c := c]> d))
      as (self' & Hreg & Htd & Hother); [apply lookup_insert_eq|].
    exists self'. split; [done|]. split; [done|].
    intros k Hk. rewrite (Hother k Hk). simpl. by rewrite lookup_insert_ne.
Qed.

Section Plugin.
Context (env : Env).

(** X17. What is registered is found again: on a plugin built by
    [__init__] with a list of commands registered in order, looking up a
    name gives the last command registered under it, and a name nobody
    registered is a [KeyError] on that name. *)
Theorem registered_commands_are_found (plugin_name version descr : string)
    (conf_fp : option string) (commands : list QiitaCommand) :
  ∃ plugin,
    register_all (BaseQiitaPlugin.__init__ env plugin_name version descr conf_fp)
                 commands = Ok plugin ∧
    (∀ l1 c l2, commands = l1 ++ c :: l2 →
       Forall (λ c', name c' ≠ name c) l2 →
       BaseQiitaPlugin.lookup_task env plugin (JStr (name c)) = Ok c) ∧
    (∀ s, s ∉ name <$> commands →
       BaseQiitaPlugin.lookup_task env plugin (JStr s) = Raise (KeyError s)).
Proof.
  destruct (register_all_stores
              (BaseQiitaPlugin.__init__ env plugin_name version descr conf_fp)
              ∅ commands eq_refl) as (plugin & Hreg & Htd & _).
  exists plugin. split; [done|].
  unfold BaseQiitaPlugin.lookup_task, getattr. rewrite Htd. split.
  - intros l1 c l2 -> Hl2. by rewrite store_commands_last.
  - intros s Hs. by rewrite store_commands_other.
Qed.

(** X18. The attributes of a plugin after [__init__] and any
    registrations are [name], [version], [decription], [conf_fp] and
    [task_dict], and no other: the description is kept under
    [decription], so reading [description] raises [AttributeError];
    [conf_fp] is the path given, or the default one when none was. *)
Theorem plugin_attributes (plugin_name version descr : string)
    (conf_fp : option string) (commands : list QiitaCommand) :
  ∃ plugin,
    register_all (BaseQiitaPlugin.__init__ env plugin_name version descr conf_fp)
                 commands = Ok plugin ∧
    getattr plugin "name" = Ok (AStr plugin_name) ∧
    getattr plugin "version" = Ok (AStr version) ∧
    getattr plugin "decription" = Ok (AStr descr) ∧
    getattr plugin "description" = Raise (AttributeError "description") ∧
    getattr plugin "conf_fp" = Ok (AStr (default (default_conf_fp env) conf_fp)) ∧
    dom (__dict__ plugin)
    = ({[ "name"; "version"; "decription"; "conf_fp"; "task_dict" ]} : gset string).
Proof.
  destruct (register_all_stores
              (BaseQiitaPlugin.__init__ env plugin_name version descr conf_fp)
              ∅ commands eq_refl) as (plugin & Hreg & Htd & Hother).
  exists plugin. split; [done|]. unfold getattr.
  rewrite !Hother by done. repeat (split; [done|]).
  apply set_eq. intros k. rewrite elem_of_dom.
  destruct (decide (k = "task_dict")) as [->|Hk].
  - rewrite Htd. split; [set_solver|eauto].
  - rewrite (Hother k Hk). unfold BaseQiitaPlugin.__init__. simpl.
    rewrite <- elem_of_dom, !dom_insert_L, dom_empty_L. set_solver.
Qed.

Lemma get_job_info_after job_id st :
  ∃ l, after_network st (QiitaClient.get_job_info env job_id st).2 l.
Proof. apply request_retry_after. Qed.

Lemma start_heartbeat_flag job_id st :
  JOB_COMPLETED (world (QiitaClient.start_heartbeat env job_id st).2)
  = JOB_COMPLETED (world st).
Proof.
  unfold QiitaClient.start_heartbeat. unfold_monad.
  destruct (request_retry_after env POST
              ("/qiita_db/jobs/" +:+ job_id +:+ "/heartbeat/")
              {| headers := None; data := Some (DataStr "") |} st)
    as (l & _ & Hflag & _).
  unfold QiitaClient.post.
  by destruct (QiitaClient._request_retry _ _ _ _ _) as [[v|e] st'].
Qed.

Lemma ensure_dir_flag output_dir st :
  JOB_COMPLETED (world (BaseQiitaPlugin.ensure_dir env output_dir st).2)
  = JOB_COMPLETED (world st).
Proof.
  unfold BaseQiitaPlugin.ensure_dir. unfold_monad.
  destruct (path_exists env _ _); [done|]. by destruct (makedirs_ok env _).
Qed.

(** X19. Whatever raises before the [try] statement of the run (the
    fetch of the job information, the start of the heartbeat, a job
    information without a usable [command], a command nobody registered,
    the creation of the output directory) leaves the run as it is, in the
    state that step left: [complete_job] is not called and
    [JOB_COMPLETED] stays as it was. *)
Theorem run_job_fails_before_try (self : BaseQiitaPlugin)
    (job_id output_dir : string) (st : ClientState) (e : Exn)
    (st' : ClientState) :
  fails_before_try env self job_id output_dir st e st' →
  BaseQiitaPlugin.run_job env self job_id output_dir st = (Raise e, st') ∧
  JOB_COMPLETED (world st') = JOB_COMPLETED (world st).
Proof.
  unfold fails_before_try, BaseQiitaPlugin.run_job. unfold_monad.
  destruct (get_job_info_after job_id st) as (l & _ & Hflag0 & _).
  intros [Hget | (job_info & st1 & Hget & Hrest)]; rewrite Hget in *;
    simpl in Hflag0; [done|].
  pose proof (start_heartbeat_flag job_id st1) as Hflag1.
  destruct Hrest as [Hhb | (st2 & Hhb & Hrest)]; rewrite Hhb in *;
    simpl in Hflag1; [split; [done|congruence]|].
  destruct Hrest as [[Hcmd ->] | (task_name & Hcmd & Hrest)]; rewrite Hcmd;
    [split; [done|congruence]|].
  destruct Hrest as [[Hlook ->] | (task & Hlook & Hdir)]; rewrite Hlook;
    [split; [done|congruence]|].
  pose proof (ensure_dir_flag output_dir st2) as Hflag2.
  rewrite Hdir in *. simpl in Hflag2. split; [done|congruence].
Qed.

(** X20. Once the steps before the [try] statement have gone through,
    the run always ends in the one call of [complete_job], so with
    [JOB_COMPLETED] set: with the job function's own triple when it
    returns, and with failure, the formatted exception and no artifacts
    when it raises or when the job information has no [parameters], in
    which case the function is not called at all. *)
Theorem run_job_always_completes (self : BaseQiitaPlugin)
    (job_id output_dir : string) (st : ClientState) (job_info : option JSON)
    (task_name : JSON) (task : QiitaCommand) (st3 : ClientState) :
  dispatched env self job_id output_dir st job_info task_name task st3 →
  let out := BaseQiitaPlugin.run_job env self job_id output_dir st in
  JOB_COMPLETED (world out.2) = true ∧
  ((∃ e, BaseQiitaPlugin.job_info_subscript job_info "parameters" = Raise e ∧
         out = QiitaClient.complete_job env job_id false
                 (Some (failure_message env task_name e)) None st3) ∨
   (∃ parameters e st4,
      BaseQiitaPlugin.job_info_subscript job_info "parameters" = Ok parameters ∧
      function task job_id parameters output_dir st3 = (Raise e, st4) ∧
      out = QiitaClient.complete_job env job_id false
              (Some (failure_message env task_name e)) None st4) ∨
   (∃ parameters success artifacts_info error_msg st4,
      BaseQiitaPlugin.job_info_subscript job_info "parameters" = Ok parameters ∧
      function task job_id parameters output_dir st3
      = (Ok (success, artifacts_info, error_msg), st4) ∧
      out = QiitaClient.complete_job env job_id success error_msg
              artifacts_info st4)).
Proof.
  intros Hd out.
  assert (Hcases :
    (∃ e, BaseQiitaPlugin.job_info_subscript job_info "parameters" = Raise e ∧
          out = QiitaClient.complete_job env job_id false
                  (Some (failure_message env task_name e)) None st3) ∨
    (∃ parameters e st4,
       BaseQiitaPlugin.job_info_subscript job_info "parameters" = Ok parameters ∧
       function task job_id parameters output_dir st3 = (Raise e, st4) ∧
       out = QiitaClient.complete_job env job_id false
               (Some (failure_message env task_name e)) None st4) ∨
    (∃ parameters success artifacts_info error_msg st4,
       BaseQiitaPlugin.job_info_subscript job_info "parameters" = Ok parameters ∧
       function task job_id parameters output_dir st3
       = (Ok (success, artifacts_info, error_msg), st4) ∧
       out = QiitaClient.complete_job env job_id success error_msg
               artifacts_info st4)).
  { destruct (BaseQiitaPlugin.job_info_subscript job_info "parameters")
      as [parameters|e] eqn:Hp.
    - destruct (function task job_id parameters output_dir st3)
        as [[[[success artifacts_info] error_msg]|e] st4] eqn:Hf.
      + right. right. exists parameters, success, artifacts_info, error_msg, st4.
        split; [done|]. split; [done|]. by eapply run_job_returns.
      + right. left. exists parameters, e, st4.
        split; [done|]. split; [done|]. by eapply run_job_captures.
    - left. exists e. split; [done|].
      destruct Hd as (st1 & st2 & H1 & H2 & H3 & H4 & H5).
      subst out. unfold BaseQiitaPlugin.run_job. unfold_monad.
      by rewrite H1, H2, H3, H4, H5, Hp. }
  split; [|exact Hcases].
  destruct Hcases as [(e & _ & ->) | [(p & e & st4 & _ & _ & ->)
                     | (p & s & a & m & st4 & _ & _ & ->)]];
    apply complete_job_flag.
Qed.

End Plugin.

(** ** A token that is refused again *)

Section RefusedAgain.
Context (env : Env).

(** X21. When the request sent again with the new token is answered 400
    as well, whatever its body, the transport call ends in
    [BadRequestError] with the text of that second answer: one
    authentication call, two requests, no second attempt, and the new
    token kept. *)
Theorem expired_twice_is_bad_request (req : Method) (url : string)
    (kwargs : Kwargs) (st : ClientState) (r1 ra r2 : Response) (ja tok : JSON) :
  let hdrs := <["Authorization" := QiitaClient.bearer env (self st)]>
                (default ∅ (headers kwargs)) in
  let full := _server_url (self st) +:+ url in
  let e1 := EvRequest req full (_verify (self st)) hdrs (data kwargs) in
  let auth := auth_event (self st) in
  let e2 := EvRequest req full (_verify (self st))
              (<["Authorization" := "Bearer " +:+ QiitaClient.format_s env tok]> hdrs)
              (data kwargs) in
  let out := QiitaClient._request_retry env req url kwargs st in
  respond env (log (world st) ++ [e1]) = Reply r1 →
  status_code r1 = 400 →
  says_token_expired r1 →
  respond env (log (world st) ++ [e1; auth]) = Reply ra →
  status_code ra = 200 →
  json_body ra = Some ja →
  subscript ja "access_token" = Ok tok →
  respond env (log (world st) ++ [e1; auth; e2]) = Reply r2 →
  status_code r2 = 400 →
  out.1 = Raise (BadRequestError (text r2)) ∧
  log (world out.2) = log (world st) ++ [e1; auth; e2] ∧
  _token (self out.2) = tok.
Proof.
  intros hdrs full e1 auth e2 out Hr1 H400 Hexp Hra H200 Hja Htok Hr2 H400'.
  pose proof (request_oauth2_eq env req full (_verify (self st)) kwargs st)
    as Hfirst.
  cbv zeta in Hfirst. fold hdrs in Hfirst. fold e1 in Hfirst.
  unfold answer in Hfirst.
  rewrite Hr1, bool_decide_eq_true_2 in Hfirst by done.
  apply token_expired_true in Hexp. rewrite Hexp in Hfirst.
  rewrite fetch_token_eq in Hfirst. cbv zeta in Hfirst.
  change (self (on_world (record e1) st)) with (self st) in Hfirst.
  fold auth in Hfirst.
  change (log (world (on_world (record e1) st)))
    with (log (world st) ++ [e1]) in Hfirst.
  rewrite <- app_assoc in Hfirst. simpl "++" in Hfirst.
  unfold answer, json in Hfirst.
  rewrite Hra, bool_decide_eq_false_2, Hja, Htok in Hfirst
    by (intros Hne; by apply Hne).
  rewrite send_eq in Hfirst. unfold answer in Hfirst.
  set (st2 := on_world (record auth) (on_world (record e1) st)) in *.
  change (log (world (set_token tok st2)))
    with ((log (world st) ++ [e1]) ++ [auth]) in Hfirst.
  rewrite <- !app_assoc in Hfirst.
  change (respond env _)
    with (respond env (log (world st) ++ [e1; auth; e2])) in Hfirst.
  rewrite Hr2 in Hfirst.
  subst out. rewrite request_retry_eq. fold full.
  rewrite (request_retry_loop_step _ _ _ _ _ _ _ _ _ Hfirst).
  rewrite H400'. simpl. split; [done|]. split; [|done].
  by rewrite <- !app_assoc.
Qed.

End RefusedAgain.

(** ** Concrete runs of the further properties *)

Lemma fetch_token_outcome_witness :
  ∃ r j,
    respond (env_with server_up) (log (world st0) ++ [auth_event (self st0)])
    = Reply r ∧
    status_code r = 200 ∧ json_body r = Some j ∧
    subscript j "access_token"
    = Ok (_token (self (QiitaClient._fetch_token (env_with server_up) st0).2)).
Proof.
  destruct (fetch_token_outcome (env_with server_up) st0)
    as (_ & Hok & _ & _).
  apply Hok. vm_compute. reflexivity.
Defined.

Lemma first_answer_200_is_returned_witness :
  (QiitaClient.get (env_with server_up) "/qiita_db/jobs/job-1" no_kwargs st0).1
  = Ok (json_body job_info_response) ∧
  refreshes (new_events st0
               (QiitaClient.get (env_with server_up) "/qiita_db/jobs/job-1"
                  no_kwargs st0).2) = 0%nat.
Proof.
  destruct (first_answer_200_is_returned (env_with server_up) GET
              "/qiita_db/jobs/job-1" no_kwargs st0 job_info_response)
    as (Hres & _ & Hnone & _); [vm_compute; reflexivity | reflexivity |].
  split; [exact Hres | exact Hnone].
Defined.

Lemma patch_builds_its_own_body_witness :
  ∃ body,
    QiitaClient.patch (env_with server_up) "/qiita_db/artifacts/1/" "remove" "/x"
      (Some "v") None no_kwargs st0
    = QiitaClient._request_retry (env_with server_up) PATCH
        "/qiita_db/artifacts/1/"
        {| headers := None; data := Some (DataDict body) |} st0 ∧
    body !! "value" = Some "v" ∧ body !! "from" = None.
Proof.
  destruct (patch_builds_its_own_body (env_with server_up)
              "/qiita_db/artifacts/1/" "remove" "/x" no_kwargs st0) as [_ Hop].
  destruct (Hop ltac:(intros H;
                      repeat (apply elem_of_cons in H as [H|H]; [discriminate H|]);
                      by apply elem_of_nil in H)
                (Some "v") None)
    as (body & Hsent & _ & _ & Hvalue & Hfrom & _).
  exists body. split; [exact Hsent|]. split; [exact Hvalue | exact Hfrom].
Defined.

Lemma start_heartbeat_thread_witness :
  (QiitaClient.start_heartbeat (env_with server_up) "job-1" st0).1 = Ok tt ∧
  last (log (world (QiitaClient.start_heartbeat (env_with server_up) "job-1" st0).2))
  = Some (EvThreadStart heartbeat_url).
Proof.
  destruct (start_heartbeat_thread (env_with server_up) "job-1" st0) as [_ Hok].
  destruct (Hok None) as (Hout & _ & _); [vm_compute; reflexivity|].
  rewrite Hout. split; [reflexivity|]. vm_compute. reflexivity.
Defined.

Lemma heartbeat_keeps_beating_witness :
  _heartbeat (env_with (server_always ok_200)) 7 heartbeat_url st0 = None.
Proof.
  apply (heartbeat_keeps_beating (env_with (server_always ok_200))
           heartbeat_url st0).
  - intros l. exists ok_200. split; reflexivity.
  - intros l. reflexivity.
  - reflexivity.
Defined.

Lemma heartbeat_raises_witness :
  _heartbeat (env_with (server_always not_found_404)) 1 heartbeat_url st0
  = Some (Raise (NotFoundError "no such job"),
          (heartbeat_post (env_with (server_always not_found_404))
             heartbeat_url st0).2).
Proof.
  destruct (heartbeat_raises (env_with (server_always not_found_404))
              heartbeat_url st0
              (heartbeat_post (env_with (server_always not_found_404))
                 heartbeat_url st0).2
              (NotFoundError "no such job")) with (fuel := 0%nat)
    as (Hrun & _ & _);
    [reflexivity | vm_compute; reflexivity | discriminate |].
  exact Hrun.
Defined.

Lemma heartbeat_success_restores_budget_witness :
  let env := env_with server_flaky in
  let st1 := (heartbeat_post env heartbeat_url st0).2 in
  let st2 := (heartbeat_post env heartbeat_url (slept 30 (slept 300 st1))).2 in
  _heartbeat env 2 heartbeat_url st0 = _heartbeat env 0 heartbeat_url (slept 30 st2).
Proof.
  intros env st1 st2.
  apply (heartbeat_success_restores_budget env heartbeat_url st0 st1 st2 None);
    [reflexivity | vm_compute; reflexivity | reflexivity | vm_compute; reflexivity].
Defined.

Lemma client_init_witness :
  ∃ c, (QiitaClient.__init__ (env_with server_up) "https://qiita.example"
          "id" "secret" (Some "") world0).1 = Ok c ∧
       _verify c = VerifyTrue ∧ _token c = JStr "fresh".
Proof.
  destruct (client_init (env_with server_up) "https://qiita.example" "id"
              "secret" (Some "") world0) as (_ & _ & Hok & _ & _).
  eexists. split; [vm_compute; reflexivity|].
  match goal with
  | |- _verify ?c = _ ∧ _ =>
      destruct (Hok c) as (_ & Hv & _ & _ & _ & r & j & Hr & _ & Hj & Htok);
        [vm_compute; reflexivity|]
  end.
  split; [exact Hv|]. vm_compute. reflexivity.
Defined.

Lemma registered_commands_are_found_witness :
  ∃ plugin,
    register_all (BaseQiitaPlugin.__init__ (env_with server_up) "demo" "1.0"
                    "A plugin" None) [failing_validate] = Ok plugin ∧
    BaseQiitaPlugin.lookup_task (env_with server_up) plugin (JStr "Validate")
    = Ok failing_validate ∧
    BaseQiitaPlugin.lookup_task (env_with server_up) plugin (JStr "Summary")
    = Raise (KeyError "Summary").
Proof.
  destruct (registered_commands_are_found (env_with server_up) "demo" "1.0"
              "A plugin" None [failing_validate])
    as (plugin & Hreg & Hfound & Hmissing).
  exists plugin. split; [exact Hreg|]. split.
  - apply (Hfound [] failing_validate []); [reflexivity|constructor].
  - apply Hmissing. simpl. intros H.
    apply elem_of_cons in H as [H|H]; [discriminate H|].
    by apply elem_of_nil in H.
Defined.

Lemma run_job_fails_before_try_witness :
  let env := env_with server_up in
  let st1 := (QiitaClient.get_job_info env "job-1" st0).2 in
  let st2 := (QiitaClient.start_heartbeat env "job-1" st1).2 in
  BaseQiitaPlugin.run_job env empty_plugin "job-1" "/tmp/out" st0
  = (Raise (KeyError "Validate"), st2) ∧
  JOB_COMPLETED (world st2) = false.
Proof.
  intros env st1 st2.
  destruct (run_job_fails_before_try env empty_plugin "job-1" "/tmp/out" st0
              (KeyError "Validate") st2) as [Hrun Hflag].
  - right. exists (json_body job_info_response), st1.
    split; [vm_compute; reflexivity|].
    right. exists st2. split; [vm_compute; reflexivity|].
    right. exists (JStr "Validate"). split; [vm_compute; reflexivity|].
    left. split; [vm_compute; reflexivity|reflexivity].
  - split; [exact Hrun|]. rewrite Hflag. reflexivity.
Defined.

Lemma run_job_always_completes_witness :
  JOB_COMPLETED
    (world (BaseQiitaPlugin.run_job (env_with server_up) validate_plugin
              "job-1" "/tmp/out" st0).2) = true.
Proof.
  set (env := env_with server_up).
  set (st1 := (QiitaClient.get_job_info env "job-1" st0).2).
  set (st2 := (QiitaClient.start_heartbeat env "job-1" st1).2).
  destruct (run_job_always_completes env validate_plugin "job-1" "/tmp/out" st0
              (json_body job_info_response) (JStr "Validate") failing_validate
              st2) as [Hflag _].
  - exists st1, st2. split; [vm_compute; reflexivity|].
    split; [vm_compute; reflexivity|]. split; [vm_compute; reflexivity|].
    split; [vm_compute; reflexivity|]. vm_compute. reflexivity.
  - exact Hflag.
Defined.

Lemma expired_twice_is_bad_request_witness :
  (QiitaClient.get (env_with server_never_satisfied) "/qiita_db/jobs/job-1"
     no_kwargs st0).1
  = Raise (BadRequestError "token has timed out").
Proof.
  destruct (expired_twice_is_bad_request (env_with server_never_satisfied) GET
              "/qiita_db/jobs/job-1" no_kwargs st0 expired_response
              token_response expired_response
              (JObj {[ "access_token" := JStr "fresh" ]}) (JStr "fresh"))
    as (Hres & _ & _);
    [ vm_compute; reflexivity | reflexivity
    | eexists; split; [reflexivity | vm_compute; reflexivity]
    | vm_compute; reflexivity | reflexivity | reflexivity
    | vm_compute; reflexivity | vm_compute; reflexivity | reflexivity | ].
  exact Hres.
Defined.

(** ** A 400 whose body cannot be read for a description *)

Section UnreadableBadRequest.
Context (env : Env).

(** A first answer of 400 with a body that parses to a true value but
    cannot be asked for [error_description] (an object without that key,
    or anything that is not an object): the exception of the subscript
    leaves [_request_oauth2] and with it the whole call, after the one
    request. The status is never classified. *)
Lemma bad_request_without_description req url kwargs st r j e :
  let e1 := EvRequest req (_server_url (self st) +:+ url) (_verify (self st))
              (<["Authorization" := QiitaClient.bearer env (self st)]>
                 (default ∅ (headers kwargs)))
              (data kwargs) in
  respond env (log (world st) ++ [e1]) = Reply r →
  status_code r = 400 →
  json_body r = Some j →
  truthy j = true →
  subscript j "error_description" = Raise e →
  QiitaClient._request_retry env req url kwargs st
  = (Raise e, on_world (record e1) st).
Proof.
  intros e1 Hr H400 Hj Ht He. rewrite request_retry_eq.
  apply request_retry_loop_raise.
  rewrite request_oauth2_eq. cbv zeta. fold e1. unfold answer.
  rewrite Hr, bool_decide_eq_true_2 by done.
  unfold QiitaClient.token_expired. rewrite Hj. simpl. by rewrite Ht, He.
Qed.

End UnreadableBadRequest.

(** C5, on the code as it is. A server that answers 400 with a JSON
    object that has no [error_description]: [get] raises [KeyError] on
    that name, not [BadRequestError]; with a JSON list for a body it
    raises [TypeError]. Either way one request was sent and no token
    asked for. The same 400 with a body that is not JSON is the
    [BadRequestError] the documentation of [_request_retry] promises for
    every 400. *)
Theorem bad_request_is_not_always_classified :
  let url := "/qiita_db/jobs/job-1" in
  let as_object := QiitaClient.get (env_with (server_always bad_request_object))
                     url no_kwargs st0 in
  let as_list := QiitaClient.get (env_with (server_always bad_request_list))
                   url no_kwargs st0 in
  let as_text := QiitaClient.get
                   (env_with (server_always (mkResponse 400 "bad request" None)))
                   url no_kwargs st0 in
  as_object.1 = Raise (KeyError "error_description") ∧
  as_object.1 ≠ Raise (BadRequestError "bad request") ∧
  requests (new_events st0 as_object.2) = 1%nat ∧
  refreshes (new_events st0 as_object.2) = 0%nat ∧
  as_list.1 = Raise TypeError ∧
  requests (new_events st0 as_list.2) = 1%nat ∧
  as_text.1 = Raise (BadRequestError "bad request").
Proof.
  cbv zeta. unfold QiitaClient.get.
  rewrite (bad_request_without_description
             (env_with (server_always bad_request_object)) GET
             "/qiita_db/jobs/job-1" no_kwargs st0 bad_request_object
             (JObj {[ "message" := JStr "bad request" ]})
             (KeyError "error_description"))
    by (vm_compute; reflexivity).
  rewrite (bad_request_without_description
             (env_with (server_always bad_request_list)) GET
             "/qiita_db/jobs/job-1" no_kwargs st0 bad_request_list
             (JList [JStr "bad request"]) TypeError)
    by (vm_compute; reflexivity).
  repeat split; try (vm_compute; reflexivity). discriminate.
Qed.
